(** * Webpack stats normalisation and dependency resolution

    Shallow embedding of [getWebpackStatsData] (src/index.ts, repeated in
    src/README.md) and of the two server-side resolvers of src/README.md:
    [getModulesForAsset] and the [/api/module-dependencies] route handler
    together with the [modulesById] / [modulesByIdentifier] maps. *)

From Stdlib Require Import List String Ascii ZArith Bool Lia Permutation.
From Stdlib Require Import Sorting.Sorted.
From Stdlib Require Import DecimalString.
Import ListNotations.

Set Warnings "-register-all".
Open Scope bool_scope.
Open Scope string_scope.

(** ** JavaScript numbers

    A JSON number is parsed to a double.  We keep integral values as [Z];
    a literal that overflows the double range (e.g. [1e400]) parses to
    [Infinity] or [-Infinity].  [JSON.parse] never yields NaN, but a
    subtraction can, so arithmetic results are [option num] with [None]
    standing for NaN. *)
Inductive num : Type :=
| Fin (z : Z)
| PosInf
| NegInf.

(** [x - y] *)
Definition num_sub (x y : num) : option num :=
  match x, y with
  | Fin a, Fin b => Some (Fin (a - b))
  | PosInf, PosInf => None
  | NegInf, NegInf => None
  | PosInf, _ => Some PosInf
  | NegInf, _ => Some NegInf
  | Fin _, PosInf => Some NegInf
  | Fin _, NegInf => Some PosInf
  end.

(** The sign an [Array.prototype.sort] comparator result is read with:
    a NaN result counts as [+0]. *)
Definition cmp_sign (r : option num) : comparison :=
  match r with
  | None => Eq
  | Some (Fin z) => Z.compare z 0
  | Some PosInf => Gt
  | Some NegInf => Lt
  end.

(** ** Parsed JSON values

    Objects keep their properties in insertion order, which is the order
    [JSON.stringify] writes them in.  [JSON.parse] produces a tree: no two
    positions of a parsed document share an object, so a position in the
    document is the identity of the object stored there. *)
Inductive json : Type :=
| JNull
| JBool (b : bool)
| JNum (n : num)
| JStr (s : string)
| JArr (xs : list json)
| JObj (fs : list (string * json)).

Definition fields := list (string * json).

(** [o.k]: [None] is [undefined]. *)
Fixpoint get (fs : fields) (k : string) : option json :=
  match fs with
  | [] => None
  | (k', v) :: r => if String.eqb k k' then Some v else get r k
  end.

(** [o.k = v]: an existing property keeps its place, a new one is
    appended. *)
Fixpoint set_field (fs : fields) (k : string) (v : json) : fields :=
  match fs with
  | [] => [(k, v)]
  | (k', v') :: r =>
      if String.eqb k k' then (k', v) :: r else (k', v') :: set_field r k v
  end.

(** ['k' in o && Array.isArray(o.k)] *)
Definition has_array (fs : fields) (k : string) : bool :=
  match get fs k with Some (JArr _) => true | _ => false end.

(** ['k' in o && Array.isArray(o.k) && o.k.length > 0] *)
Definition nonempty_array (fs : fields) (k : string) : bool :=
  match get fs k with Some (JArr (_ :: _)) => true | _ => false end.

(** The elements of [o.k] when it is an array. *)
Definition array_field (fs : fields) (k : string) : list json :=
  match get fs k with Some (JArr xs) => xs | _ => [] end.

(** [Array.prototype.findIndex] *)
Fixpoint find_index {A} (p : A -> bool) (l : list A) : option nat :=
  match l with
  | [] => None
  | x :: r => if p x then Some 0 else option_map S (find_index p r)
  end.

Fixpoint replace_nth {A} (l : list A) (i : nat) (x : A) : list A :=
  match l, i with
  | [], _ => []
  | _ :: r, O => x :: r
  | y :: r, S i' => y :: replace_nth r i' x
  end.

(** ** Errors of [getWebpackStatsData]

    One constructor per [throw] of the function; [ETypeError] is a
    [TypeError] raised after the [try] block: by reading [.size] of a
    [null] asset or converting a size in the sort comparator, or by
    converting a count to a string in a log line. *)
Inductive stats_error : Type :=
| ENotObject         (* "Stats JSON is not an object." *)
| EMultiNoChild      (* "Multi-compiler stats detected, but no valid child ..." *)
| EUnrecognized      (* "Unrecognized stats JSON structure: ..." *)
| EInvalidFormat     (* "Invalid stats format: ..." *)
| ETypeError.

(** What reaches the caller: the [catch] block re-throws the errors whose
    message starts with one of its listed prefixes and wraps every other
    one into "Error parsing or validating JSON from ..."; the sort runs
    after the [try] block, so its error is not caught. *)
Inductive ingest_error : Type :=
| Rethrown (e : stats_error)
| Wrapped (e : stats_error)
| Uncaught (e : stats_error).

Definition kind_of (e : ingest_error) : stats_error :=
  match e with Rethrown k | Wrapped k | Uncaught k => k end.

(** The prefix test of the [catch] block:
    "Invalid stats format:", "Unrecognized stats JSON structure:",
    "Stats JSON is not an object.", "First child in multi-compiler stats". *)
Definition catch_rethrows (e : stats_error) : bool :=
  match e with
  | ENotObject | EUnrecognized | EInvalidFormat => true
  | EMultiNoChild | ETypeError => false
  end.

Definition catch_error (e : stats_error) : ingest_error :=
  if catch_rethrows e then Rethrown e else Wrapped e.

Inductive result (A E : Type) : Type :=
| Ok (a : A)
| Err (e : E).
Arguments Ok {A E} a.
Arguments Err {A E} e.

(** ** Detection of the effective stats object *)

(** Where the effective stats object sits in the parsed document. *)
Inductive sel : Type :=
| SelTop
| SelChild (i : nat).

(** [typeof child === 'object' && child !== null && 'assets' in child &&
    Array.isArray(child.assets)]; an array child has no [assets]. *)
Definition is_stats_child (c : json) : bool :=
  match c with JObj fs => has_array fs "assets" | _ => false end.

(** The object stored at a position of the document. *)
Definition at_sel (raw : json) (s : sel) : option fields :=
  match s, raw with
  | SelTop, JObj fs => Some fs
  | SelChild i, JObj fs =>
      match nth_error (array_field fs "children") i with
      | Some (JObj cfs) => Some cfs
      | _ => None
      end
  | _, _ => None
  end.

(** Writing the fields of the object at a position: the mutations of the
    effective stats object, seen from the whole document. *)
Definition put_sel (raw : json) (s : sel) (fs' : fields) : json :=
  match s, raw with
  | SelTop, _ => JObj fs'
  | SelChild i, JObj fs =>
      JObj (set_field fs "children"
              (JArr (replace_nth (array_field fs "children") i (JObj fs'))))
  | SelChild _, _ => raw
  end.

(** Lines 140-171 of src/index.ts: the position of [effectiveStats], its
    fields, and whether the [console.warn] fallback to the top level was
    taken.  [typeof [] === 'object'], so an array passes the first test
    and, having none of the three fields, reaches the last branch. *)
Definition detect (raw : json) : result (sel * fields * bool) stats_error :=
  match raw with
  | JNull | JBool _ | JNum _ | JStr _ => Err ENotObject
  | JArr _ => Err EUnrecognized
  | JObj fs =>
      if nonempty_array fs "modules" then Ok (SelTop, fs, false)
      else if nonempty_array fs "children" then
        let children := array_field fs "children" in
        match find_index is_stats_child children with
        | Some i =>
            match nth_error children i with
            | Some (JObj cfs) => Ok (SelChild i, cfs, false)
            | _ => Err EUnrecognized (* not reached: [is_stats_child] holds *)
            end
        | None =>
            if has_array fs "assets" then Ok (SelTop, fs, true)
            else Err EMultiNoChild
        end
      else if has_array fs "assets" then Ok (SelTop, fs, false)
      else Err EUnrecognized
  end.

(** ** Sorting with a comparator

    [Array.prototype.sort] is stable; with a comparator that is a total
    preorder every stable sort returns the same list, which is the one of
    this insertion sort.  [cmp x y = Gt] puts [x] after [y]. *)
Section Sort.
Variable A : Type.
Variable cmp : A -> A -> comparison.

Fixpoint insert (x : A) (l : list A) : list A :=
  match l with
  | [] => [x]
  | y :: r => match cmp x y with Gt => y :: insert x r | _ => x :: l end
  end.

Fixpoint sort (l : list A) : list A :=
  match l with
  | [] => []
  | x :: r => insert x (sort r)
  end.
End Sort.
Arguments insert {A} cmp x l.
Arguments sort {A} cmp l.

(** ** The normalisation steps *)

(** [ToPrimitive] on a parsed JSON value throws a [TypeError] exactly for
    an object with an own [toString] property (a JSON value is never
    callable, and the inherited [valueOf] returns the object itself), and
    for an array whose [join(',')] converts such an element; any other
    value converts.  Both hints fail alike. *)
Fixpoint to_primitive_throws (v : json) : bool :=
  match v with
  | JObj fs => match get fs "toString" with Some _ => true | None => false end
  | JArr xs => existsb to_primitive_throws xs
  | _ => false
  end.

Definition opt_throws (v : option json) : bool :=
  match v with Some x => to_primitive_throws x | None => false end.

(** Evaluating [(b.size ?? 0) - (a.size ?? 0)] throws for an element [a]
    or [b] that is [null] (reading [.size]) or whose size does not
    convert. *)
Definition size_throws (a : json) : bool :=
  match a with
  | JNull => true
  | JObj fs => opt_throws (get fs "size")
  | _ => false
  end.

(** [a.size ?? 0] as the number the subtraction reads, when that size is
    missing, [null], a boolean or a number.  A primitive or an array has no
    [size] property.  A string, array or object size goes through
    [ToPrimitive] and [ToNumber]: [None]. *)
Definition size_operand (a : json) : option num :=
  match a with
  | JObj fs =>
      match get fs "size" with
      | None | Some JNull => Some (Fin 0)
      | Some (JNum n) => Some n
      | Some (JBool b) => Some (Fin (if b then 1 else 0))
      | Some _ => None
      end
  | _ => Some (Fin 0)
  end.

(** [a.size ?? 0] as a value. *)
Definition size_value (a : json) : json :=
  match a with
  | JObj fs =>
      match get fs "size" with None | Some JNull => JNum (Fin 0) | Some v => v end
  | _ => JNum (Fin 0)
  end.

Section Normalise.
(** The sign the sort reads from [x - y] when [x] or [y] is a string or an
    array and none is an object: [ToNumber] of the string, or of the
    array's [join(',')], is left abstract. *)
Variable coerced_sub : json -> json -> comparison.

(** [(a, b) => (b.size ?? 0) - (a.size ?? 0)], on elements whose sizes
    convert.  An object size converts to ["[object Object]"], so to NaN,
    and a NaN result counts as [+0]. *)
Definition asset_cmp (a b : json) : comparison :=
  match size_operand b, size_operand a with
  | Some x, Some y => cmp_sign (num_sub x y)
  | _, _ =>
      match size_value b, size_value a with
      | JObj _, _ | _, JObj _ => Eq
      | x, y => coerced_sub x y
      end
  end.

(** [effectiveStats.assets.sort(...)]: with two elements or more every
    element reaches the comparator, and an element whose operand throws
    makes the sort throw. *)
Definition sort_assets (xs : list json) : result (list json) stats_error :=
  if Nat.leb 2 (List.length xs) && existsb size_throws xs then Err ETypeError
  else Ok (sort asset_cmp xs).

(** [Array.isArray(v) ? v : []] *)
Definition or_array (v : option json) : json :=
  match v with Some (JArr xs) => JArr xs | _ => JArr [] end.

(** [v ?? d] *)
Definition nullish_or (v : option json) (d : json) : json :=
  match v with None | Some JNull => d | Some x => x end.

Definition len_json (xs : list json) : json :=
  JNum (Fin (Z.of_nat (List.length xs))).

(** Lines 175-183: validation and defaults, inside the [try] block. *)
Definition validate_defaults (fs : fields) : result fields stats_error :=
  if negb (has_array fs "assets") then Err EInvalidFormat
  else
    let fs1 := set_field fs "errors" (or_array (get fs "errors")) in
    let fs2 := set_field fs1 "warnings" (or_array (get fs1 "warnings")) in
    let fs3 := set_field fs2 "errorsCount"
                 (nullish_or (get fs2 "errorsCount")
                    (len_json (array_field fs2 "errors"))) in
    let fs4 := set_field fs3 "warningsCount"
                 (nullish_or (get fs3 "warningsCount")
                    (len_json (array_field fs3 "warnings"))) in
    Ok fs4.

(** Lines 202-210: after the [try] block. *)
Definition sort_and_arrays (fs : fields) : result fields stats_error :=
  let sorted :=
    if has_array fs "assets" then
      match sort_assets (array_field fs "assets") with
      | Ok xs => Ok (set_field fs "assets" (JArr xs))
      | Err e => Err e
      end
    else Ok (set_field fs "assets" (JArr [])) in
  match sorted with
  | Err e => Err e
  | Ok fs1 =>
      let fs2 := set_field fs1 "modules" (or_array (get fs1 "modules")) in
      Ok (set_field fs2 "chunks" (or_array (get fs2 "chunks")))
  end.

(** Line 196, after the [try] block: the template literal converts
    [warningsCount] and [errorsCount] to strings.  Line 213 converts the
    same two values again (the sort does not touch them), and the array
    lengths, so it throws only when line 196 does. *)
Definition count_log_throws (fs : fields) : bool :=
  opt_throws (get fs "warningsCount") || opt_throws (get fs "errorsCount").

(** [getWebpackStatsData] on the parsed document [raw] (reading the file
    and [JSON.parse] are left out).  It returns the document after the
    in-place mutations together with the position of [effectiveStats],
    the object it returns as [statsData]. *)
Definition getWebpackStatsData (raw : json) : result (json * sel) ingest_error :=
  match detect raw with
  | Err e => Err (catch_error e)
  | Ok (s, fs, _) =>
      match validate_defaults fs with
      | Err e => Err (catch_error e)
      | Ok fs1 =>
          if count_log_throws fs1 then Err (Uncaught ETypeError)
          else
            match sort_and_arrays fs1 with
            | Err e => Err (Uncaught e)
            | Ok fs2 => Ok (put_sel raw s fs2, s)
            end
      end
  end.
End Normalise.

(** The returned report [statsData]. *)
Definition stats_data (r : json * sel) : option fields :=
  at_sel (fst r) (snd r).

(** [JSON.parse(JSON.stringify(v))]: infinities are written as [null]. *)
Fixpoint repr (v : json) : json :=
  match v with
  | JNum PosInf | JNum NegInf => JNull
  | JArr xs => JArr (map repr xs)
  | JObj fs => JObj (map (fun kv => (fst kv, repr (snd kv))) fs)
  | _ => v
  end.

Definition repr_fields (fs : fields) : fields :=
  map (fun kv => (fst kv, repr (snd kv))) fs.

(** ** The resolvers of the server

    They read the normalised report through the declared interfaces
    [WebpackAssetNative], [WebpackChunkNative] and [WebpackModuleNative].
    Module objects live in a heap: an inlined module of a chunk, an element
    of [statsData.modules] and a nested module of a concatenated module are
    references, so identity ([Set<WebpackModuleNative>]) and in-place
    mutation are those of JavaScript objects. *)

(** A chunk or module id: [number | string]. *)
Inductive jid : Type :=
| IdNum (n : num)
| IdStr (s : string).

Definition num_eqb (a b : num) : bool :=
  match a, b with
  | Fin x, Fin y => Z.eqb x y
  | PosInf, PosInf | NegInf, NegInf => true
  | _, _ => false
  end.

(** SameValueZero: the key equality of [Set] and [Map]; a number never
    equals a string. *)
Definition same_value_zero (a b : jid) : bool :=
  match a, b with
  | IdNum x, IdNum y => num_eqb x y
  | IdStr x, IdStr y => String.eqb x y
  | _, _ => false
  end.

Local Open Scope Z_scope.

(** The magnitude of the double nearest a non-negative integer [a]: its
    53-bit significand rounded half to even.  A result of [2^1024] or more
    is an overflow to [Infinity]. *)
Definition dbl_round_pos (a : Z) : Z :=
  if Z.ltb a (2 ^ 53) then a
  else
    let e := Z.log2 a - 52 in
    let q := Z.shiftr a e in
    let r := a - Z.shiftl q e in
    let half := Z.shiftl 1 (e - 1) in
    let q' := if Z.ltb half r || (Z.eqb r half && Z.odd q) then q + 1 else q in
    Z.shiftl q' e.

(** Decimal digits of a non-negative integer. *)
Definition dec (z : Z) : string := NilZero.string_of_int (Z.to_int z).

Fixpoint zeros (n : nat) : string :=
  match n with O => "" | S m => String "0"%char (zeros m) end.

(** Step 5 of [Number::toString] for a positive integral double [x] with
    [D] digits: the least [k] with a [k]-digit [s] such that [s * 10^(D-k)]
    rounds to [x], the [s] closest to [x] (the even one on a tie). *)
Fixpoint shortest_digits (x D k : Z) (fuel : nat) : Z * Z :=
  match fuel with
  | O => (x, D)
  | S f =>
      let p := D - k in
      let s0 := x / 10 ^ p in
      let ok s := Z.leb (10 ^ (k - 1)) s && Z.ltb s (10 ^ k) &&
                  Z.eqb (dbl_round_pos (s * 10 ^ p)) x in
      match ok s0, ok (s0 + 1) with
      | true, true =>
          let d0 := x - s0 * 10 ^ p in
          let d1 := (s0 + 1) * 10 ^ p - x in
          if Z.ltb d0 d1 then (s0, k)
          else if Z.ltb d1 d0 then (s0 + 1, k)
          else if Z.even s0 then (s0, k) else (s0 + 1, k)
      | true, false => (s0, k)
      | false, true => (s0 + 1, k)
      | false, false => shortest_digits x D (k + 1) f
      end
  end.

(** Steps 6-8: [s] padded with zeros below 1e21, exponent form above. *)
Definition format_digits (s k n : Z) : string :=
  let ds := dec s in
  if Z.leb n 21 then String.append ds (zeros (Z.to_nat (n - k)))
  else match ds with
       | String c EmptyString => String c (String.append "e+" (dec (n - 1)))
       | String c r =>
           String c (String.append "." (String.append r (String.append "e+" (dec (n - 1)))))
       | EmptyString => EmptyString
       end.

(** [Number::toString] of a positive integral double [x]; the digits may
    also be those of [10^D], one more than [x] has. *)
Definition number_string_pos (x : Z) : string :=
  let D := Z.of_nat (String.length (dec x)) in
  if Z.eqb (dbl_round_pos (10 ^ D)) x then format_digits 1 1 (D + 1)
  else let '(s, k) := shortest_digits x D 1 (Z.to_nat D) in format_digits s k D.

(** [String(v)].  A number is first the double nearest the integer: the
    literal [JSON.parse] read. *)
Definition js_string (a : jid) : string :=
  match a with
  | IdStr s => s
  | IdNum (Fin z) =>
      let m := dbl_round_pos (Z.abs z) in
      if Z.leb (2 ^ 1024) m then (if Z.ltb z 0 then "-Infinity" else "Infinity")
      else if Z.eqb m 0 then "0"
      else if Z.ltb z 0 then String "-"%char (number_string_pos m)
      else number_string_pos m
  | IdNum PosInf => "Infinity"
  | IdNum NegInf => "-Infinity"
  end.

Local Close Scope Z_scope.

Definition loc := nat.

Record module : Type := mkModule {
  m_id : option jid;             (* [id]; [None] for null or undefined *)
  m_identifier : option string;  (* [identifier]; [None] when absent *)
  m_name : string;
  m_size : option num;           (* [size]; [None] for null or undefined *)
  m_chunks : list jid;
  m_issuer : option string;      (* [issuer: string | null] *)
  m_issuerId : option jid;       (* [issuerId]; [None] for null or undefined *)
  m_modules : option (list loc)  (* [modules] when it is an array *)
}.

Record chunk : Type := mkChunk {
  c_id : jid;
  c_modules : option (list loc)  (* [modules?: WebpackModuleNative[]] *)
}.

Record asset : Type := mkAsset {
  a_name : string;
  a_size : option num;
  a_chunks : list jid
}.

(** [statsData] after normalisation: [assets], [modules] and [chunks] are
    arrays. *)
Record report : Type := mkReport {
  r_assets : list asset;
  r_modules : list loc;
  r_chunks : list chunk
}.

Definition heap := loc -> module.

Definition upd (h : heap) (l : loc) (m : module) : heap :=
  fun l' => if Nat.eqb l' l then m else h l'.

Definition set_modules (m : module) (ms : list loc) : module :=
  {| m_id := m_id m; m_identifier := m_identifier m; m_name := m_name m;
     m_size := m_size m; m_chunks := m_chunks m; m_issuer := m_issuer m;
     m_issuerId := m_issuerId m; m_modules := Some ms |}.

(** [x.size ?? 0] *)
Definition size_or_zero (s : option num) : num :=
  match s with Some n => n | None => Fin 0 end.

(** [(a, b) => (b.size ?? 0) - (a.size ?? 0)] on module objects. *)
Definition module_cmp (h : heap) (a b : loc) : comparison :=
  cmp_sign (num_sub (size_or_zero (m_size (h b))) (size_or_zero (m_size (h a)))).

Definition sort_modules (h : heap) (ms : list loc) : list loc :=
  sort (module_cmp h) ms.

(** [Set.prototype.add] on a set of objects, kept in insertion order. *)
Definition set_add (s : list loc) (l : loc) : list loc :=
  if existsb (Nat.eqb l) s then s else app s [l].

(** [getModulesForAsset] (src/README.md 365-392, src/index.ts 261-288).
    [!statsData.chunks] is false: [chunks] is an array after
    normalisation, and every array, even an empty one, is truthy. *)
Definition getModulesForAsset (st : report) (h : heap) (assetName : string)
  : list loc :=
  match find (fun a => String.eqb (a_name a) assetName) (r_assets st) with
  | None => []
  | Some asset =>
      let relevantChunkIds := a_chunks asset in
      let has id := existsb (same_value_zero id) relevantChunkIds in
      let fromChunks :=
        fold_left
          (fun acc ch =>
             if has (c_id ch) then
               match c_modules ch with
               | Some ms => fold_left set_add ms acc
               | None => acc
               end
             else acc)
          (r_chunks st) [] in
      let relevantModules :=
        match fromChunks with
        | [] =>
            fold_left
              (fun acc l => if existsb has (m_chunks (h l)) then set_add acc l else acc)
              (r_modules st) []
        | _ => fromChunks
        end in
      sort_modules h relevantModules
  end.

(** [Map.prototype.get] and [Map.prototype.set] over an insertion-ordered
    association list. *)
Fixpoint map_get {K V} (eqk : K -> K -> bool) (m : list (K * V)) (k : K)
  : option V :=
  match m with
  | [] => None
  | (k', v) :: r => if eqk k' k then Some v else map_get eqk r k
  end.

Fixpoint map_set {K V} (eqk : K -> K -> bool) (m : list (K * V)) (k : K) (v : V)
  : list (K * V) :=
  match m with
  | [] => [(k, v)]
  | (k', v') :: r => if eqk k' k then (k', v) :: r else (k', v') :: map_set eqk r k v
  end.

(** [modulesById]: keyed by the raw id (README 346-356). *)
Definition modulesById (h : heap) (mods : list loc) : list (jid * loc) :=
  fold_left
    (fun m l => match m_id (h l) with Some i => map_set same_value_zero m i l | None => m end)
    mods [].

(** [modulesByIdentifier]: only truthy identifiers. *)
Definition modulesByIdentifier (h : heap) (mods : list loc) : list (string * loc) :=
  fold_left
    (fun m l =>
       match m_identifier (h l) with
       | Some s => if String.eqb s "" then m else map_set String.eqb m s l
       | None => m
       end)
    mods [].

(** [s.includes('/')] *)
Fixpoint includes_slash (s : string) : bool :=
  match s with
  | EmptyString => false
  | String c r => Ascii.eqb c "/"%char || includes_slash r
  end.

(** The target lookup of the route (README 463-475); the route parameter
    is a string. *)
Definition findTarget (st : report) (h : heap) (ref : string) : option loc :=
  match map_get same_value_zero (modulesById h (r_modules st)) (IdStr ref) with
  | Some l => Some l
  | None =>
      match map_get String.eqb (modulesByIdentifier h (r_modules st)) ref with
      | Some l => Some l
      | None =>
          if includes_slash ref
          then find (fun l => String.eqb (m_name (h l)) ref) (r_modules st)
          else None
      end
  end.

(** [targetId != null && issuerId != null && String(issuerId) === String(targetId)] *)
Definition issuer_id_matches (t c : module) : bool :=
  match m_id t, m_issuerId c with
  | Some ti, Some ci => String.eqb (js_string ci) (js_string ti)
  | _, _ => false
  end.

(** [targetIdentifier && potentialChild.issuer === targetIdentifier] *)
Definition issuer_matches (t c : module) : bool :=
  match m_identifier t, m_issuer c with
  | Some ti, Some ci => negb (String.eqb ti "") && String.eqb ci ti
  | _, _ => false
  end.

(** The dependents of a found target (README 478-510), with the heap
    after the call.  In the concatenation case [directDependencies] is the
    array [targetModule.modules] itself, so the final [sort] reorders it. *)
Definition directDependencies (st : report) (h : heap) (t : loc) : list loc * heap :=
  let tm := h t in
  match m_modules tm with
  | Some ((_ :: _) as ms) =>
      let sorted := sort_modules h ms in
      (sorted, upd h t (set_modules tm sorted))
  | _ =>
      let deps :=
        fold_left
          (fun acc c =>
             let cm := h c in
             if issuer_id_matches tm cm then app acc [c]
             else if issuer_matches tm cm then app acc [c]
             else acc)
          (r_modules st) [] in
      (sort_modules h deps, h)
  end.

(** The [/api/module-dependencies/:moduleIdOrIdentifier] handler. *)
Definition moduleDependencies (st : report) (h : heap) (ref : string)
  : list loc * heap :=
  match findTarget st h ref with
  | Some t => directDependencies st h t
  | None => ([], h)
  end.

(** ** Vocabulary of the statements *)

(** The order of the real line extended with the two infinities. *)
Definition num_compare (x y : num) : comparison :=
  match x, y with
  | Fin a, Fin b => Z.compare a b
  | PosInf, PosInf | NegInf, NegInf => Eq
  | PosInf, _ => Gt
  | _, PosInf => Lt
  | NegInf, _ => Lt
  | _, NegInf => Gt
  end.

Definition num_le (x y : num) : Prop := num_compare x y <> Gt.

(** The size an asset is ordered by: [size ?? 0]. *)
Definition asset_key (a : json) : num :=
  match size_operand a with Some n => n | None => Fin 0 end.

(** An asset object whose [size] is a number, [null] or missing. *)
Definition valid_asset (a : json) : bool :=
  match a with
  | JObj fs =>
      match get fs "size" with
      | None | Some JNull | Some (JNum _) => true
      | _ => false
      end
  | _ => false
  end.

(** The same, with a finite number. *)
Definition finite_asset (a : json) : bool :=
  match a with
  | JObj fs =>
      match get fs "size" with
      | None | Some JNull | Some (JNum (Fin _)) => true
      | _ => false
      end
  | _ => false
  end.

(** A property that is not an infinite number. *)
Definition not_infinite (v : option json) : bool :=
  match v with Some (JNum PosInf) | Some (JNum NegInf) => false | _ => true end.

(** The size of a module object as its comparator reads it. *)
Definition module_key (h : heap) (l : loc) : num := size_or_zero (m_size (h l)).

(** Removal of repeated locations, keeping first occurrences, given the
    locations already [seen]. *)
Fixpoint dedup_from (seen : list loc) (l : list loc) : list loc :=
  match l with
  | [] => []
  | x :: r =>
      if existsb (Nat.eqb x) seen then dedup_from seen r
      else x :: dedup_from (app seen [x]) r
  end.

(** Exact ([SameValueZero]) membership of a chunk id in the asset's
    [chunks]. *)
Definition in_asset_chunks (a : asset) (id : jid) : bool :=
  existsb (same_value_zero id) (a_chunks a).

(** The modules inlined in the chunks of [st] whose id is in the asset's
    [chunks], in traversal order. *)
Definition chunk_modules (st : report) (a : asset) : list loc :=
  flat_map
    (fun ch =>
       if in_asset_chunks a (c_id ch) then
         match c_modules ch with Some ms => ms | None => [] end
       else [])
    (r_chunks st).

(** The modules of [statsData.modules] sharing a chunk with the asset. *)
Definition fallback_modules (st : report) (h : heap) (a : asset) : list loc :=
  filter (fun l => existsb (in_asset_chunks a) (m_chunks (h l))) (r_modules st).

(** Order by [size] where every size that is not a finite number counts
    as 0. *)
Definition size_nonfinite_as_zero (a : json) : Z :=
  match size_operand a with Some (Fin z) => z | _ => 0%Z end.

Definition normalised_keys : list string :=
  ["assets"; "errors"; "warnings"; "errorsCount"; "warningsCount"; "modules"; "chunks"].

(** ** Lookup maps built by a fold

    [modulesById] and [modulesByIdentifier] both insert every module with a
    key into an initially empty [Map], the later module winning; [index_by]
    is that loop for a key function. *)
Definition index_by {K V} (eqk : K -> K -> bool) (key : V -> option K)
    (vs : list V) (m0 : list (K * V)) : list (K * V) :=
  fold_left (fun m v => match key v with Some k => map_set eqk m k v | None => m end)
    vs m0.

(** The key [modulesByIdentifier] files a module under: its identifier
    when that is truthy. *)
Definition identifier_key (h : heap) (l : loc) : option string :=
  match m_identifier (h l) with
  | Some s => if String.eqb s "" then None else Some s
  | None => None
  end.

(** ** The client's filter worker (src/public/filter.worker.js)

    The worker receives the assets of [/api/table] as a JSON clone, the
    minimum size in bytes and the exclusion filters (strings; a string
    written [/.../] is a regular expression).  The regular-expression
    engine and the relational comparison of a string, array or object size
    with a number (which goes through [ToPrimitive] and [ToNumber]) are
    parameters. *)
Section Worker.
(** [new RegExp(p).test(s)]; [None] when the constructor throws on an
    invalid pattern. *)
Variable regex_test : string -> string -> option bool.
(** [v < n] for a string, array or object [v] whose [ToPrimitive] returns
    (when it throws, see [keep_asset_throws]). *)
Variable lt_coerced : json -> num -> bool.

(** [v < n] for a number [n]; [null] and booleans convert to 0 and 1. *)
Definition js_lt (v : json) (n : num) : bool :=
  match v with
  | JNum x => match num_compare x n with Lt => true | _ => false end
  | JNull => match num_compare (Fin 0) n with Lt => true | _ => false end
  | JBool b => match num_compare (Fin (if b then 1 else 0)) n with Lt => true | _ => false end
  | _ => lt_coerced v n
  end.

(** [asset.size ?? 0] *)
Definition size_or_default (fs : fields) : json :=
  match get fs "size" with None | Some JNull => JNum (Fin 0) | Some v => v end.

(** [s.includes(sub)] *)
Fixpoint includes (s sub : string) : bool :=
  String.prefix sub s ||
  match s with EmptyString => false | String _ r => includes r sub end.

(** [s.endsWith('/')] *)
Fixpoint ends_with_slash (s : string) : bool :=
  match s with
  | EmptyString => false
  | String c EmptyString => Ascii.eqb c "/"%char
  | String _ r => ends_with_slash r
  end.

(** [typeof f === 'string' && f.startsWith('/') && f.endsWith('/')] *)
Definition regex_filter (f : string) : bool :=
  String.prefix "/" f && ends_with_slash f.

(** [f.slice(1, -1)] *)
Definition regex_source (f : string) : string :=
  String.substring 1 (String.length f - 2) f.

(** The [for] loop over [excludeFilters]: [true] when it sets [hidden]
    (and breaks).  A failing [new RegExp] is caught and the loop goes on;
    a filter that is not a string is skipped. *)
Fixpoint hidden_by (name : string) (filters : list json) : bool :=
  match filters with
  | [] => false
  | JStr f :: r =>
      if regex_filter f then
        match regex_test (regex_source f) name with
        | Some true => true
        | _ => hidden_by name r
        end
      else if includes name f then true
      else hidden_by name r
  | _ :: r => hidden_by name r
  end.

(** The callback of [allAssets.filter] in [filterAssets]. *)
Definition keep_asset (minSizeBytes : num) (excludeFilters : list json) (a : json) : bool :=
  match a with
  | JObj fs =>
      match get fs "name" with
      | Some (JStr name) =>
          let hidden := js_lt (size_or_default fs) minSizeBytes in
          let hidden :=
            if negb hidden && Nat.ltb 0 (List.length excludeFilters)
            then hidden_by name excludeFilters else hidden in
          negb hidden
      | _ => false
      end
  | _ => false
  end.

(** [filterAssets(allAssets, minSizeBytes, excludeFilters)] *)
Definition filterAssets (allAssets : json) (minSizeBytes : num)
    (excludeFilters : list json) : list json :=
  match allAssets with
  | JArr xs => filter (keep_asset minSizeBytes excludeFilters) xs
  | _ => []
  end.

(** The callback throws at [size < minSizeBytes] when [ToPrimitive] of the
    size throws: an object with an own [toString] property, or an array
    holding one. *)
Definition keep_asset_throws (a : json) : bool :=
  match a with
  | JObj fs =>
      match get fs "name" with
      | Some (JStr _) => to_primitive_throws (size_or_default fs)
      | _ => false
      end
  | _ => false
  end.

(** The call of [filterAssets] in [self.onmessage]: [None] when it throws
    (the [catch] posts an [ERROR] message); [allAssets.filter] stops at the
    first element whose callback throws. *)
Definition filterAssets_call (allAssets : json) (minSizeBytes : num)
    (excludeFilters : list json) : option (list json) :=
  match allAssets with
  | JArr xs =>
      if existsb keep_asset_throws xs then None
      else Some (filterAssets allAssets minSizeBytes excludeFilters)
  | _ => Some []
  end.
End Worker.

(** ** Client-side helpers of src/public/index.html

    Strings are read as sequences of UTF-16 code units below 256 (the
    Latin-1 block), one [ascii] each. *)

(** The white space [String.prototype.trim] removes, within that block:
    TAB, LF, VT, FF, CR, SPACE and NO-BREAK SPACE. *)
Definition is_js_ws (c : ascii) : bool :=
  let n := nat_of_ascii c in
  (Nat.leb 9 n && Nat.leb n 13) || Nat.eqb n 32 || Nat.eqb n 160.

Fixpoint trim_start (s : string) : string :=
  match s with
  | EmptyString => EmptyString
  | String c r => if is_js_ws c then trim_start r else s
  end.

Fixpoint trim_end (s : string) : string :=
  match s with
  | EmptyString => EmptyString
  | String c r =>
      let r' := trim_end r in
      if is_js_ws c && String.eqb r' "" then EmptyString else String c r'
  end.

(** [p.trim()] *)
Definition trim (s : string) : string := trim_end (trim_start s).

(** [s.split(',')]: [''.split(',')] is [['']]. *)
Fixpoint split_comma (s : string) : list string :=
  match s with
  | EmptyString => [EmptyString]
  | String c r =>
      if Ascii.eqb c ","%char then EmptyString :: split_comma r
      else match split_comma r with
           | h :: t => String c h :: t
           | [] => [String c EmptyString]
           end
  end.

(** [serializableExcludeFilters]:
    [excludePatternsRaw.value.split(',').map(p => p.trim()).filter(p => p)];
    the empty string is the only falsy string. *)
Definition serializableExcludeFilters (excludePatternsRaw : string) : list string :=
  filter (fun p => negb (String.eqb p "")) (map trim (split_comma excludePatternsRaw)).

(** [truncateText(text, maxLength)] on a string: [!text] holds for the
    empty string only. *)
Definition truncateText (text : string) (maxLength : nat) : string :=
  if String.eqb text "" then ""
  else if Nat.ltb maxLength (String.length text)
       then String.append (String.substring 0 maxLength text) "..."
       else text.

(** ** Sample documents *)

(** A reading of the coerced subtractions for the sample documents, whose
    asset sizes are all numbers: every such difference taken as NaN. *)
Definition nan_coercion (x y : json) : comparison := Eq.

Definition asset_json (n : string) (sz : num) : json :=
  JObj [("name", JStr n); ("size", JNum sz)].

(** Two children, the first without [assets]. *)
Definition multi_doc : fields :=
  [("children", JArr [JObj [("name", JStr "server")];
                      JObj [("assets", JArr [asset_json "main.js" (Fin 10)])]])].

(** A size written [1e400] in the file parses to [Infinity]. *)
Definition overflow_doc : json :=
  JObj [("assets", JArr [asset_json "small.js" (Fin 5); asset_json "huge.js" PosInf])].

Definition string_count_doc : json :=
  JObj [("assets", JArr []); ("errorsCount", JStr "3")].

(** A child compilation that has child compilations of its own. *)
Definition nested_doc : json :=
  JObj [("children",
         JArr [JObj [("assets", JArr [asset_json "main.js" (Fin 10)]);
                     ("children", JArr [JObj [("assets", JArr [])]])]])].

Definition single_doc : fields :=
  [("assets", JArr [asset_json "a.js" (Fin 1); asset_json "b.js" (Fin 7)]);
   ("errors", JStr "none")].

(** Two children, neither with an [assets] array, and no top-level
    [assets]. *)
Definition multi_doc_no_child : fields :=
  [("children", JArr [JObj [("name", JStr "server")]; JNull])].

(** ** Sample reports for the resolvers *)

Definition no_module : module :=
  mkModule None None "" None [] None None None.

(** Module objects stored at locations 0, 1, ... *)
Definition heap_of (ms : list module) : heap := fun l => nth l ms no_module.

(** The example of the specification: [a.js] (id 1) is the issuer of
    [b.js] (id 2, [issuerId: 1]); both are inlined in chunk 0, the only
    chunk of [main.js]. *)
Definition mod_a : module :=
  mkModule (Some (IdNum (Fin 1))) (Some "./a.js") "./a.js" (Some (Fin 3000))
    [IdNum (Fin 0)] None None None.

Definition mod_b : module :=
  mkModule (Some (IdNum (Fin 2))) (Some "./b.js") "./b.js" (Some (Fin 2000))
    [IdNum (Fin 0)] None (Some (IdNum (Fin 1))) None.

Definition example_heap : heap := heap_of [mod_a; mod_b].

Definition example_report : report :=
  mkReport [mkAsset "main.js" (Some (Fin 5000)) [IdNum (Fin 0)]] [0; 1]
    [mkChunk (IdNum (Fin 0)) (Some [0; 1])].

(** The asset lists chunk ["0"], the chunk's id is the number 0. *)
Definition mixed_id_report : report :=
  mkReport [mkAsset "main.js" None [IdStr "0"]] []
    [mkChunk (IdNum (Fin 0)) (Some [0; 1])].

(** No chunks at all; the modules still name chunk 0. *)
Definition no_chunk_report : report :=
  mkReport [mkAsset "main.js" None [IdNum (Fin 0)]] [0; 1] [].

(** A target with an empty identifier and a module whose issuer is the
    empty string. *)
Definition empty_ident_heap : heap :=
  heap_of [mkModule None (Some "") "./x.js" None [] None None None;
           mkModule None (Some "./y.js") "./y.js" None [] (Some "") None None].

Definition empty_ident_report : report := mkReport [] [0; 1] [].

(** A concatenated module ([c.js], location 2) whose nested modules are
    listed smallest first. *)
Definition mod_c : module :=
  mkModule (Some (IdNum (Fin 3))) (Some "./c.js") "./c.js" (Some (Fin 5000))
    [IdNum (Fin 0)] None None (Some [1; 0]).

Definition concat_heap : heap := heap_of [mod_a; mod_b; mod_c].

Definition concat_report : report := mkReport [] [0; 1; 2] [].

(** ** Sorting *)

Section SortFacts.
Variable A : Type.
Variable cmp : A -> A -> comparison.
Variable P : A -> Prop.
Hypothesis cmp_opp :
  forall x y, P x -> P y -> cmp y x = CompOpp (cmp x y).

Definition before (x y : A) : Prop := cmp x y <> Gt.

Lemma insert_perm (x : A) (l : list A) : Permutation (x :: l) (insert cmp x l).
Proof.
  induction l as [|y r IH]; simpl; [auto|].
  destruct (cmp x y); try apply Permutation_refl.
  eapply perm_trans; [apply perm_swap|]. constructor. exact IH.
Qed.

Lemma sort_perm (l : list A) : Permutation l (sort cmp l).
Proof.
  induction l as [|x r IH]; simpl; [constructor|].
  eapply perm_trans; [apply perm_skip, IH|]. apply insert_perm.
Qed.

Lemma insert_hd (y x : A) (l : list A) :
  before y x -> HdRel before y l -> HdRel before y (insert cmp x l).
Proof.
  intros Hyx Hl. destruct l as [|z r]; simpl.
  - constructor. exact Hyx.
  - destruct (cmp x z); constructor; auto; inversion Hl; auto.
Qed.

Lemma insert_sorted (x : A) (l : list A) :
  P x -> Forall P l -> Sorted before l -> Sorted before (insert cmp x l).
Proof.
  intros Px. induction l as [|y r IH]; intros Hl Hs; simpl.
  - repeat constructor.
  - inversion Hl as [|? ? Py Hr]; subst. inversion Hs as [|? ? Hsr Hhd]; subst.
    destruct (cmp x y) eqn:E.
    + constructor; [exact Hs|]. constructor. unfold before. rewrite E. discriminate.
    + constructor; [exact Hs|]. constructor. unfold before. rewrite E. discriminate.
    + constructor; [apply IH; auto|].
      apply insert_hd; [|exact Hhd].
      unfold before. rewrite (cmp_opp x y Px Py), E. discriminate.
Qed.

Lemma sort_sorted (l : list A) : Forall P l -> Sorted before (sort cmp l).
Proof.
  induction l as [|x r IH]; intros H; simpl; [constructor|].
  inversion H; subst. apply insert_sorted; auto.
  apply (Permutation_Forall (sort_perm r)). assumption.
Qed.

Lemma sort_sorted_id (l : list A) : Sorted before l -> sort cmp l = l.
Proof.
  induction 1 as [|x r Hs IH Hhd]; simpl; [reflexivity|].
  rewrite IH. destruct r as [|y r']; simpl; [reflexivity|].
  inversion Hhd as [|? ? Hxy]; subst. unfold before in Hxy.
  destruct (cmp x y); [reflexivity | reflexivity | contradiction].
Qed.
End SortFacts.
Arguments before {A} cmp x y.

Lemma Sorted_Forall_impl {A} (R1 R2 : A -> A -> Prop) (P : A -> Prop) (l : list A) :
  (forall x y, P x -> P y -> R1 x y -> R2 x y) ->
  Forall P l -> Sorted R1 l -> Sorted R2 l.
Proof.
  intros HR HP HS. induction HS as [|x r Hs IH Hhd]; [constructor|].
  inversion HP as [|? ? Px Pr]; subst. constructor; [apply IH; exact Pr|].
  destruct Hhd as [|y r' Hxy]; constructor.
  inversion Pr; subst. apply HR; assumption.
Qed.

(** ** Numbers *)

Lemma cmp_sign_sub (x y : num) : cmp_sign (num_sub x y) = num_compare x y.
Proof.
  destruct x, y; simpl; try reflexivity.
  rewrite <- Z.compare_sub. reflexivity.
Qed.

Lemma num_compare_opp (x y : num) : num_compare y x = CompOpp (num_compare x y).
Proof. destruct x, y; simpl; try reflexivity. apply Z.compare_antisym. Qed.

Lemma num_compare_trans (x y z : num) :
  num_compare x y <> Gt -> num_compare y z <> Gt -> num_compare x z <> Gt.
Proof.
  destruct x, y, z; simpl; try congruence.
  rewrite !Z.compare_gt_iff. lia.
Qed.

Lemma asset_cmp_key {coerced_sub : json -> json -> comparison} (a b : json) (ka kb : num) :
  size_operand a = Some ka -> size_operand b = Some kb ->
  (asset_cmp coerced_sub) a b = num_compare kb ka.
Proof.
  intros Ha Hb. unfold asset_cmp. rewrite Ha, Hb. apply cmp_sign_sub.
Qed.

Lemma module_cmp_key (h : heap) (a b : loc) :
  module_cmp h a b = num_compare (module_key h b) (module_key h a).
Proof. apply cmp_sign_sub. Qed.

Definition has_size (a : json) : Prop := size_operand a <> None.

Lemma asset_cmp_opp {coerced_sub : json -> json -> comparison} (x y : json) :
  has_size x -> has_size y -> (asset_cmp coerced_sub) y x = CompOpp ((asset_cmp coerced_sub) x y).
Proof.
  unfold has_size. intros Hx Hy.
  destruct (size_operand x) as [kx|] eqn:Ex; [|congruence].
  destruct (size_operand y) as [ky|] eqn:Ey; [|congruence].
  rewrite (asset_cmp_key y x ky kx Ey Ex), (asset_cmp_key x y kx ky Ex Ey).
  apply num_compare_opp.
Qed.

Lemma asset_cmp_trans {coerced_sub : json -> json -> comparison} (x y z : json) :
  has_size x -> has_size y -> has_size z ->
  (asset_cmp coerced_sub) x y <> Gt -> (asset_cmp coerced_sub) y z <> Gt -> (asset_cmp coerced_sub) x z <> Gt.
Proof.
  unfold has_size. intros Hx Hy Hz.
  destruct (size_operand x) as [kx|] eqn:Ex; [|congruence].
  destruct (size_operand y) as [ky|] eqn:Ey; [|congruence].
  destruct (size_operand z) as [kz|] eqn:Ez; [|congruence].
  rewrite (asset_cmp_key x y kx ky Ex Ey), (asset_cmp_key y z ky kz Ey Ez),
    (asset_cmp_key x z kx kz Ex Ez).
  intros H1 H2. exact (num_compare_trans kz ky kx H2 H1).
Qed.

Lemma valid_asset_has_size (a : json) : valid_asset a = true -> has_size a.
Proof.
  unfold valid_asset, has_size, size_operand. destruct a; try discriminate.
  destruct (get fs "size") as [[]|]; congruence.
Qed.

Lemma finite_asset_valid (a : json) : finite_asset a = true -> valid_asset a = true.
Proof.
  unfold valid_asset, finite_asset. destruct a; try discriminate.
  destruct (get fs "size") as [[| | [] | | |]|]; congruence.
Qed.

Lemma sort_assets_sorted {coerced_sub : json -> json -> comparison} (xs : list json) :
  Forall has_size xs ->
  Sorted (fun a b => num_le (asset_key b) (asset_key a)) (sort (asset_cmp coerced_sub) xs).
Proof.
  intros H.
  apply (Sorted_Forall_impl (before (asset_cmp coerced_sub)) _ has_size).
  - unfold before, num_le, asset_key, has_size. intros a b Ha Hb.
    destruct (size_operand a) as [ka|] eqn:Ea; [|congruence].
    destruct (size_operand b) as [kb|] eqn:Eb; [|congruence].
    rewrite (asset_cmp_key a b ka kb Ea Eb). auto.
  - apply (Permutation_Forall (sort_perm _ (asset_cmp coerced_sub) xs)). exact H.
  - apply (sort_sorted _ (asset_cmp coerced_sub) has_size).
    + intros x y Hx Hy. apply asset_cmp_opp; assumption.
    + exact H.
Qed.

Lemma sort_modules_sorted (h : heap) (ms : list loc) :
  Sorted (fun a b => num_le (module_key h b) (module_key h a)) (sort_modules h ms).
Proof.
  apply (Sorted_Forall_impl (before (module_cmp h)) _ (fun _ => True)).
  - unfold before, num_le. intros a b _ _. rewrite module_cmp_key. auto.
  - apply Forall_forall. auto.
  - apply (sort_sorted _ (module_cmp h) (fun _ => True)).
    + intros x y _ _. rewrite !module_cmp_key. apply num_compare_opp.
    + apply Forall_forall. auto.
Qed.

(** ** Properties of objects *)

Lemma get_set_same (fs : fields) (k : string) (v : json) :
  get (set_field fs k v) k = Some v.
Proof.
  induction fs as [|[k' v'] r IH]; simpl.
  - rewrite String.eqb_refl. reflexivity.
  - destruct (String.eqb_spec k k') as [->|Hne]; simpl.
    + rewrite String.eqb_refl. reflexivity.
    + rewrite (proj2 (String.eqb_neq k k') Hne). exact IH.
Qed.

Lemma get_set_other (fs : fields) (k k' : string) (v : json) :
  k' <> k -> get (set_field fs k v) k' = get fs k'.
Proof.
  intros Hne. induction fs as [|[k0 v0] r IH]; simpl.
  - rewrite (proj2 (String.eqb_neq k' k) Hne). reflexivity.
  - destruct (String.eqb_spec k k0) as [->|Hk]; simpl.
    + rewrite (proj2 (String.eqb_neq k' k0) Hne). reflexivity.
    + destruct (String.eqb k' k0); [reflexivity | exact IH].
Qed.

Lemma set_field_get (fs : fields) (k : string) (v : json) :
  get fs k = Some v -> set_field fs k v = fs.
Proof.
  induction fs as [|[k0 v0] r IH]; simpl; [discriminate|].
  destruct (String.eqb_spec k k0) as [->|Hk].
  - intros H. injection H as ->. reflexivity.
  - intros H. rewrite (IH H). reflexivity.
Qed.

Lemma nth_error_replace_same {A} (l : list A) (i : nat) (x y : A) :
  nth_error l i = Some y -> nth_error (replace_nth l i x) i = Some x.
Proof.
  revert i. induction l as [|z r IH]; intros [|i]; simpl; try discriminate; auto.
Qed.

Lemma nth_error_replace_other {A} (l : list A) (i j : nat) (x : A) :
  j <> i -> nth_error (replace_nth l i x) j = nth_error l j.
Proof.
  revert i j. induction l as [|z r IH]; intros [|i] [|j] H; simpl; auto; try lia.
  all: apply IH; lia.
Qed.

(** ** Structure of [getWebpackStatsData] *)

Ltac fields_simpl :=
  repeat (rewrite get_set_same || rewrite get_set_other by (try discriminate; assumption)).

Lemma or_array_elems (v : option json) :
  or_array v = JArr (match v with Some (JArr xs) => xs | _ => [] end).
Proof. destruct v as [[]|]; reflexivity. Qed.

Lemma getWebpackStatsData_inv {coerced_sub : json -> json -> comparison} (raw raw' : json) (s : sel) :
  getWebpackStatsData coerced_sub raw = Ok (raw', s) ->
  exists fs0 w fs1 fs2,
    detect raw = Ok (s, fs0, w) /\ validate_defaults fs0 = Ok fs1 /\
    (sort_and_arrays coerced_sub) fs1 = Ok fs2 /\ raw' = put_sel raw s fs2.
Proof.
  unfold getWebpackStatsData.
  destruct (detect raw) as [[[s0 fs0] w]|e] eqn:E0; [|discriminate].
  destruct (validate_defaults fs0) as [fs1|e] eqn:E1; [|discriminate].
  destruct (count_log_throws fs1); [discriminate|].
  destruct ((sort_and_arrays coerced_sub) fs1) as [fs2|e] eqn:E2; [|discriminate].
  intros H. injection H as <- <-. exists fs0, w, fs1, fs2. auto.
Qed.

Lemma detect_at (raw : json) (s : sel) (fs0 : fields) (w : bool) :
  detect raw = Ok (s, fs0, w) -> at_sel raw s = Some fs0.
Proof.
  destruct raw as [| | | | |fs]; simpl; try discriminate.
  destruct (nonempty_array fs "modules").
  { intros H. injection H as <- <- _. reflexivity. }
  destruct (nonempty_array fs "children").
  - destruct (find_index is_stats_child (array_field fs "children")) as [i|].
    + destruct (nth_error (array_field fs "children") i) as [[]|] eqn:E;
        try discriminate.
      intros H. injection H as <- <- _. simpl. rewrite E. reflexivity.
    + destruct (has_array fs "assets"); [|discriminate].
      intros H. injection H as <- <- _. reflexivity.
  - destruct (has_array fs "assets"); [|discriminate].
    intros H. injection H as <- <- _. reflexivity.
Qed.

Lemma at_put (raw : json) (s : sel) (fs0 fs' : fields) :
  at_sel raw s = Some fs0 -> at_sel (put_sel raw s fs') s = Some fs'.
Proof.
  destruct s as [|i], raw as [| | | | |fs]; simpl; try discriminate; auto.
  destruct (nth_error (array_field fs "children") i) as [[]|] eqn:E;
    try discriminate.
  intros _. unfold array_field at 1. rewrite get_set_same.
  rewrite (nth_error_replace_same _ _ _ _ E). reflexivity.
Qed.

Lemma validate_defaults_spec (fs0 fs1 : fields) :
  validate_defaults fs0 = Ok fs1 ->
  has_array fs0 "assets" = true /\
  get fs1 "errors" = Some (JArr (array_field fs0 "errors")) /\
  get fs1 "warnings" = Some (JArr (array_field fs0 "warnings")) /\
  get fs1 "errorsCount" =
    Some (nullish_or (get fs0 "errorsCount") (len_json (array_field fs0 "errors"))) /\
  get fs1 "warningsCount" =
    Some (nullish_or (get fs0 "warningsCount") (len_json (array_field fs0 "warnings"))) /\
  (forall k, k <> "errors" -> k <> "warnings" -> k <> "errorsCount" ->
     k <> "warningsCount" -> get fs1 k = get fs0 k).
Proof.
  unfold validate_defaults. destruct (has_array fs0 "assets"); [|discriminate].
  intros H. injection H as <-.
  unfold array_field. fields_simpl. rewrite !or_array_elems.
  repeat split; try reflexivity.
  intros k H1 H2 H3 H4. fields_simpl. reflexivity.
Qed.

Lemma opt_throws_nullish (v : option json) (n : num) :
  opt_throws (Some (nullish_or v (JNum n))) = opt_throws v.
Proof. destruct v as [[]|]; reflexivity. Qed.

Lemma count_log_throws_validate (fs0 fs1 : fields) :
  validate_defaults fs0 = Ok fs1 -> count_log_throws fs1 = count_log_throws fs0.
Proof.
  intros Hv. destruct (validate_defaults_spec _ _ Hv) as (_ & _ & _ & He & Hw & _).
  unfold count_log_throws, len_json in *. rewrite He, Hw, !opt_throws_nullish.
  reflexivity.
Qed.

Lemma sort_assets_ok {coerced_sub : json -> json -> comparison} (xs : list json) :
  existsb size_throws xs = false -> (sort_assets coerced_sub) xs = Ok (sort (asset_cmp coerced_sub) xs).
Proof. unfold sort_assets. intros ->. rewrite andb_false_r. reflexivity. Qed.

Lemma sort_and_arrays_spec {coerced_sub : json -> json -> comparison} (fs1 fs2 : fields) :
  has_array fs1 "assets" = true ->
  (sort_and_arrays coerced_sub) fs1 = Ok fs2 ->
  get fs2 "assets" = Some (JArr (sort (asset_cmp coerced_sub) (array_field fs1 "assets"))) /\
  get fs2 "modules" = Some (JArr (array_field fs1 "modules")) /\
  get fs2 "chunks" = Some (JArr (array_field fs1 "chunks")) /\
  (forall k, k <> "assets" -> k <> "modules" -> k <> "chunks" ->
     get fs2 k = get fs1 k).
Proof.
  intros Ha. unfold sort_and_arrays. rewrite Ha.
  unfold sort_assets.
  destruct (Nat.leb 2 (List.length (array_field fs1 "assets")) &&
            existsb size_throws (array_field fs1 "assets")); [discriminate|].
  intros H. injection H as <-.
  unfold array_field at 2 3. fields_simpl. rewrite !or_array_elems.
  repeat split; try reflexivity.
  intros k H1 H2 H3. fields_simpl. reflexivity.
Qed.

Lemma sort_and_arrays_ok {coerced_sub : json -> json -> comparison} (fs1 : fields) :
  has_array fs1 "assets" = true ->
  existsb size_throws (array_field fs1 "assets") = false ->
  exists fs2, (sort_and_arrays coerced_sub) fs1 = Ok fs2.
Proof.
  intros Ha Hn. unfold sort_and_arrays. rewrite Ha, (sort_assets_ok _ Hn).
  eexists. reflexivity.
Qed.

Lemma validate_defaults_ok (fs : fields) :
  has_array fs "assets" = true -> exists fs1, validate_defaults fs = Ok fs1.
Proof. unfold validate_defaults. intros ->. eexists. reflexivity. Qed.

Lemma find_index_first {A} (p : A -> bool) (l : list A) (i : nat) (x : A) :
  nth_error l i = Some x -> p x = true ->
  (forall j y, j < i -> nth_error l j = Some y -> p y = false) ->
  find_index p l = Some i.
Proof.
  revert i. induction l as [|z r IH]; intros [|i] Hx Hp Hb; simpl in *;
    try discriminate.
  - injection Hx as ->. rewrite Hp. reflexivity.
  - rewrite (Hb 0 z) by (reflexivity || lia).
    rewrite (IH i Hx Hp); [reflexivity|].
    intros j y Hj Hy. apply (Hb (S j) y); [lia | exact Hy].
Qed.

Lemma find_index_none {A} (p : A -> bool) (l : list A) :
  Forall (fun x => p x = false) l -> find_index p l = None.
Proof. induction 1 as [|x r Hx _ IH]; simpl; [reflexivity|]. rewrite Hx, IH. reflexivity. Qed.

Lemma valid_asset_no_throw (xs : list json) :
  forallb valid_asset xs = true -> existsb size_throws xs = false.
Proof.
  induction xs as [|x r IH]; simpl; [reflexivity|].
  intros H. apply andb_true_iff in H as [Hx Hr].
  rewrite (IH Hr). destruct x as [| | | | |fs]; try discriminate.
  simpl in Hx |- *. unfold opt_throws.
  destruct (get fs "size") as [[]|]; try discriminate; reflexivity.
Qed.

Lemma forallb_has_size (xs : list json) :
  forallb valid_asset xs = true -> Forall has_size xs.
Proof.
  intros H. apply Forall_forall. intros x Hx.
  apply valid_asset_has_size. exact (proj1 (forallb_forall _ _) H x Hx).
Qed.

(** Where [getWebpackStatsData] puts the report, and how its fields are
    obtained from the selected object. *)
Lemma getWebpackStatsData_report {coerced_sub : json -> json -> comparison} (raw raw' : json) (s : sel) :
  getWebpackStatsData coerced_sub raw = Ok (raw', s) ->
  exists fs0 w fs1 fs2,
    detect raw = Ok (s, fs0, w) /\ validate_defaults fs0 = Ok fs1 /\
    (sort_and_arrays coerced_sub) fs1 = Ok fs2 /\ raw' = put_sel raw s fs2 /\
    at_sel raw s = Some fs0 /\ stats_data (raw', s) = Some fs2.
Proof.
  intros H. destruct (getWebpackStatsData_inv _ _ _ H) as (fs0 & w & fs1 & fs2 & Hd & Hv & Hs & ->).
  exists fs0, w, fs1, fs2. repeat split; auto.
  - exact (detect_at _ _ _ _ Hd).
  - unfold stats_data. simpl. exact (at_put _ _ _ _ (detect_at _ _ _ _ Hd)).
Qed.

(** ** Claims on the normalisation *)

(** C1 (amended).  Detection tries the shapes in order, the first match
    winning: a non-empty [modules] array selects the top-level object;
    otherwise a non-empty [children] array selects the first child that is
    an object with an [assets] array, and when there is none the top-level
    object when it has an [assets] array (with the warning flag set), else
    fails with the multi-build error; otherwise an [assets] array selects
    the top-level object, and anything else fails with the unrecognised
    structure error.  [null], booleans, numbers and strings fail with
    [NotAnObject]; an array passes the object test and fails with the
    unrecognised structure error. *)
Theorem C1_detect_first_match (fs : fields) :
  (nonempty_array fs "modules" = true ->
     detect (JObj fs) = Ok (SelTop, fs, false)) /\
  (nonempty_array fs "modules" = false -> nonempty_array fs "children" = true ->
     forall i cfs,
       nth_error (array_field fs "children") i = Some (JObj cfs) ->
       has_array cfs "assets" = true ->
       (forall j c, j < i -> nth_error (array_field fs "children") j = Some c ->
                    is_stats_child c = false) ->
       detect (JObj fs) = Ok (SelChild i, cfs, false)) /\
  (nonempty_array fs "modules" = false -> nonempty_array fs "children" = true ->
     Forall (fun c => is_stats_child c = false) (array_field fs "children") ->
     detect (JObj fs) =
       if has_array fs "assets" then Ok (SelTop, fs, true) else Err EMultiNoChild) /\
  (nonempty_array fs "modules" = false -> nonempty_array fs "children" = false ->
     detect (JObj fs) =
       if has_array fs "assets" then Ok (SelTop, fs, false) else Err EUnrecognized) /\
  detect JNull = Err ENotObject /\
  (forall b, detect (JBool b) = Err ENotObject) /\
  (forall n, detect (JNum n) = Err ENotObject) /\
  (forall str, detect (JStr str) = Err ENotObject) /\
  (forall xs, detect (JArr xs) = Err EUnrecognized).
Proof.
  repeat split; simpl; intros; try reflexivity.
  - rewrite H. reflexivity.
  - rewrite H, H0.
    rewrite (find_index_first is_stats_child _ i (JObj cfs) H1 H2 H3), H1.
    reflexivity.
  - rewrite H, H0, (find_index_none _ _ H1). reflexivity.
  - rewrite H, H0. reflexivity.
Qed.

(** C1: an array is not a JSON object, yet it does not fail with
    [NotAnObject]. *)
Lemma C1_array_input_not_NotAnObject :
  detect (JArr []) = Err EUnrecognized /\ detect (JArr []) <> Err ENotObject.
Proof. split; [reflexivity | discriminate]. Qed.

(** C1: the first qualifying child is selected, not the first child. *)
Lemma C1_witness :
  detect (JObj multi_doc) =
    Ok (SelChild 1, [("assets", JArr [asset_json "main.js" (Fin 10)])], false).
Proof.
  apply (proj1 (proj2 (C1_detect_first_match multi_doc))); try reflexivity.
  intros j c Hj Hc. destruct j as [|j]; [|lia].
  simpl in Hc. injection Hc as <-. reflexivity.
Defined.

(** C6 (amended).  For a document whose top-level object is selected
    (it has a non-empty [modules] array or no non-empty [children] array)
    and whose assets are objects with a numeric, [null] or missing [size],
    and whose [errorsCount] and [warningsCount] convert to strings (none is
    an object with an own [toString] property or an array holding one),
    normalisation succeeds on the top-level object and its [assets] is a
    permutation of the input array (same length, same asset objects, so no
    [size] field is touched) that is non-increasing by [size ?? 0], where
    an infinite size counts as infinite, not as 0. *)
Theorem C6_assets_sorted_by_size (coerced_sub : json -> json -> comparison) (fs : fields) (xs : list json) :
  get fs "assets" = Some (JArr xs) ->
  nonempty_array fs "modules" = true \/ nonempty_array fs "children" = false ->
  forallb valid_asset xs = true ->
  count_log_throws fs = false ->
  exists fs',
    getWebpackStatsData coerced_sub (JObj fs) = Ok (JObj fs', SelTop) /\
    exists ys,
      get fs' "assets" = Some (JArr ys) /\ List.length ys = List.length xs /\
      Permutation xs ys /\
      Sorted (fun a b => num_le (asset_key b) (asset_key a)) ys.
Proof.
  intros Ha Hsel Hv Hcl.
  assert (Hha : has_array fs "assets" = true) by (unfold has_array; rewrite Ha; reflexivity).
  assert (Hd : detect (JObj fs) = Ok (SelTop, fs, false)).
  { simpl. destruct (nonempty_array fs "modules") eqn:Em; [reflexivity|].
    destruct Hsel as [Hm|Hc]; [discriminate|]. rewrite Hc, Hha. reflexivity. }
  destruct (validate_defaults_ok fs Hha) as [fs1 Hv1].
  destruct (validate_defaults_spec _ _ Hv1) as (_ & _ & _ & _ & _ & Hk1).
  assert (Ha1 : get fs1 "assets" = Some (JArr xs))
    by (rewrite Hk1 by discriminate; exact Ha).
  assert (Hha1 : has_array fs1 "assets" = true)
    by (unfold has_array; rewrite Ha1; reflexivity).
  assert (Hn : existsb size_throws (array_field fs1 "assets") = false)
    by (unfold array_field; rewrite Ha1; apply valid_asset_no_throw; exact Hv).
  destruct (sort_and_arrays_ok (coerced_sub := coerced_sub) fs1 Hha1 Hn) as [fs2 Hs2].
  destruct (sort_and_arrays_spec _ _ Hha1 Hs2) as (Has2 & _).
  exists fs2. split.
  - unfold getWebpackStatsData. rewrite Hd, Hv1, (count_log_throws_validate _ _ Hv1), Hcl, Hs2.
    reflexivity.
  - exists (sort (asset_cmp coerced_sub) xs).
    unfold array_field in Has2. rewrite Ha1 in Has2.
    repeat split.
    + exact Has2.
    + symmetry. apply Permutation_length. apply sort_perm.
    + apply sort_perm.
    + apply sort_assets_sorted. apply forallb_has_size. exact Hv.
Qed.

(** C6: an asset whose size overflows to [Infinity] is sorted first; with
    non-finite sizes counted as 0 the result would not be non-increasing. *)
Lemma C6_infinite_size_sorted_first :
  exists fs' ys,
    getWebpackStatsData nan_coercion overflow_doc = Ok (JObj fs', SelTop) /\
    get fs' "assets" = Some (JArr ys) /\
    ~ Sorted (fun a b => (size_nonfinite_as_zero b <= size_nonfinite_as_zero a)%Z) ys.
Proof.
  do 2 eexists. split; [reflexivity|]. split; [reflexivity|].
  intros H. apply Sorted_inv in H. destruct H as [_ Hd].
  apply HdRel_inv in Hd. vm_compute in Hd. apply Hd; reflexivity.
Qed.

(** C6: a witness on a single-build document. *)
Lemma C6_witness :
  exists fs',
    getWebpackStatsData nan_coercion (JObj single_doc) = Ok (JObj fs', SelTop) /\
    exists ys,
      get fs' "assets" = Some (JArr ys) /\ List.length ys = 2 /\
      Permutation [asset_json "a.js" (Fin 1); asset_json "b.js" (Fin 7)] ys /\
      Sorted (fun a b => num_le (asset_key b) (asset_key a)) ys.
Proof.
  apply (C6_assets_sorted_by_size nan_coercion single_doc
           [asset_json "a.js" (Fin 1); asset_json "b.js" (Fin 7)]);
    [reflexivity | right; reflexivity | reflexivity | reflexivity].
Defined.

(** C7 (amended).  After a successful normalisation, [errors] and
    [warnings] of the report are arrays: the source arrays, or empty when
    the source value is missing or not an array.  [errorsCount]
    ([warningsCount]) is the length of that array when the source count is
    missing or [null], and is kept as given otherwise, whatever its type.
    In particular, when [errors] and [errorsCount] are both omitted,
    [errors] is empty and [errorsCount] is 0. *)
Theorem C7_errors_warnings_counts (coerced_sub : json -> json -> comparison) (raw raw' : json) (s : sel) (fs0 : fields)
    (w : bool) (fs' : fields) :
  detect raw = Ok (s, fs0, w) ->
  getWebpackStatsData coerced_sub raw = Ok (raw', s) ->
  stats_data (raw', s) = Some fs' ->
  get fs' "errors" = Some (JArr (array_field fs0 "errors")) /\
  get fs' "warnings" = Some (JArr (array_field fs0 "warnings")) /\
  ((get fs0 "errorsCount" = None \/ get fs0 "errorsCount" = Some JNull) ->
     get fs' "errorsCount" = Some (len_json (array_field fs0 "errors"))) /\
  (forall v, get fs0 "errorsCount" = Some v -> v <> JNull ->
     get fs' "errorsCount" = Some v) /\
  ((get fs0 "warningsCount" = None \/ get fs0 "warningsCount" = Some JNull) ->
     get fs' "warningsCount" = Some (len_json (array_field fs0 "warnings"))) /\
  (forall v, get fs0 "warningsCount" = Some v -> v <> JNull ->
     get fs' "warningsCount" = Some v) /\
  (get fs0 "errors" = None -> get fs0 "errorsCount" = None ->
     get fs' "errors" = Some (JArr []) /\ get fs' "errorsCount" = Some (JNum (Fin 0))).
Proof.
  intros Hd H Hst.
  destruct (getWebpackStatsData_report _ _ _ H)
    as (fs0' & w' & fs1 & fs2 & Hd' & Hv & Hs & -> & _ & Hst').
  rewrite Hd in Hd'. injection Hd' as <- _.
  rewrite Hst in Hst'. injection Hst' as ->.
  destruct (validate_defaults_spec _ _ Hv) as (Hha & He & Hw & Hec & Hwc & _).
  assert (Hha1 : has_array fs1 "assets" = true).
  { unfold has_array in *. rewrite (proj2 (proj2 (proj2 (proj2 (proj2 (validate_defaults_spec _ _ Hv)))))) by discriminate.
    exact Hha. }
  destruct (sort_and_arrays_spec _ _ Hha1 Hs) as (_ & _ & _ & Hk).
  rewrite !Hk by discriminate. rewrite He, Hw, Hec, Hwc.
  split; [reflexivity|]. split; [reflexivity|].
  split; [intros [-> | ->]; reflexivity|].
  split; [intros v -> Hv'; destruct v; [contradiction|reflexivity..]|].
  split; [intros [-> | ->]; reflexivity|].
  split; [intros v -> Hv'; destruct v; [contradiction|reflexivity..]|].
  intros E Ec. rewrite Ec. unfold array_field. rewrite E. split; reflexivity.
Qed.

(** C7: a count given as a string is kept, not recomputed. *)
Lemma C7_string_count_kept :
  exists fs',
    getWebpackStatsData nan_coercion string_count_doc = Ok (JObj fs', SelTop) /\
    get fs' "errors" = Some (JArr []) /\
    get fs' "errorsCount" = Some (JStr "3") /\
    get fs' "errorsCount" <> Some (len_json []).
Proof.
  eexists. split; [reflexivity|]. split; [reflexivity|]. split; [reflexivity|].
  discriminate.
Qed.

(** C7: a witness on a document that omits [errors] and the counts and has
    a non-array [errors]. *)
Lemma C7_witness :
  detect (JObj single_doc) = Ok (SelTop, single_doc, false) /\
  (exists r, getWebpackStatsData nan_coercion (JObj single_doc) = Ok (r, SelTop) /\
   exists fs', stats_data (r, SelTop) = Some fs' /\
   get fs' "errors" = Some (JArr (array_field single_doc "errors"))).
Proof.
  split; [reflexivity|].
  eexists. split; [reflexivity|]. eexists. split; [reflexivity|].
  exact (proj1 (C7_errors_warnings_counts nan_coercion (JObj single_doc) _ SelTop single_doc
                  false _ eq_refl eq_refl eq_refl)).
Defined.

(** C10.  Normalisation works in place: the report is the object selected
    in the input document (the top-level object or one of its children),
    reached at the same position of the document after the call; it keeps
    every property of that object other than [assets], [errors],
    [warnings], [errorsCount], [warningsCount], [modules] and [chunks]; and
    when a child is selected, the rest of the document is unchanged. *)
Theorem C10_report_is_selected_object (coerced_sub : json -> json -> comparison) (raw raw' : json) (s : sel) :
  getWebpackStatsData coerced_sub raw = Ok (raw', s) ->
  exists fs0 w fs',
    detect raw = Ok (s, fs0, w) /\ at_sel raw s = Some fs0 /\
    raw' = put_sel raw s fs' /\ stats_data (raw', s) = Some fs' /\
    (forall k, ~ In k normalised_keys -> get fs' k = get fs0 k) /\
    (forall i, s = SelChild i ->
       exists fs fs'',
         raw = JObj fs /\ raw' = JObj fs'' /\
         (forall k, k <> "children" -> get fs'' k = get fs k) /\
         (forall j, j <> i ->
            nth_error (array_field fs'' "children") j =
            nth_error (array_field fs "children") j)).
Proof.
  intros H.
  destruct (getWebpackStatsData_report _ _ _ H)
    as (fs0 & w & fs1 & fs2 & Hd & Hv & Hs & -> & Hat & Hst).
  exists fs0, w, fs2. repeat split; auto.
  - intros k Hk.
    assert (Hne : forall k', In k' normalised_keys -> k <> k')
      by (intros k' Hk' ->; contradiction).
    destruct (validate_defaults_spec _ _ Hv) as (Hha & _ & _ & _ & _ & Hk1).
    assert (Hha1 : has_array fs1 "assets" = true).
    { unfold has_array in *. rewrite Hk1 by discriminate. exact Hha. }
    destruct (sort_and_arrays_spec _ _ Hha1 Hs) as (_ & _ & _ & Hk2).
    rewrite Hk2, Hk1; auto; apply Hne; simpl; tauto.
  - intros i ->. destruct raw as [| | | | |fs]; simpl in Hat; try discriminate.
    exists fs. eexists. split; [reflexivity|]. split; [reflexivity|]. split.
    + intros k Hk. apply get_set_other. exact Hk.
    + intros j Hj. unfold array_field at 1. rewrite get_set_same.
      apply nth_error_replace_other. exact Hj.
Qed.

(** C10: a witness on a multi-build document. *)
Lemma C10_witness :
  exists raw', getWebpackStatsData nan_coercion (JObj multi_doc) = Ok (raw', SelChild 1) /\
  exists fs0 w fs', detect (JObj multi_doc) = Ok (SelChild 1, fs0, w) /\
    stats_data (raw', SelChild 1) = Some fs'.
Proof.
  eexists. split; [reflexivity|].
  destruct (C10_report_is_selected_object nan_coercion (JObj multi_doc) _ (SelChild 1) eq_refl)
    as (fs0 & w & fs' & Hd & _ & _ & Hst & _).
  exists fs0, w, fs'. split; assumption.
Defined.

(** ** Normalising a normalised report again *)

Lemma repr_obj (fs : fields) : repr (JObj fs) = JObj (repr_fields fs).
Proof. reflexivity. Qed.

Lemma get_repr_fields (fs : fields) (k : string) :
  get (repr_fields fs) k = option_map repr (get fs k).
Proof.
  induction fs as [|[k' v] r IH]; simpl; [reflexivity|].
  destruct (String.eqb k k'); [reflexivity | exact IH].
Qed.

Lemma nonempty_array_repr (fs : fields) (k : string) :
  nonempty_array (repr_fields fs) k = nonempty_array fs k.
Proof.
  unfold nonempty_array. rewrite get_repr_fields.
  destruct (get fs k) as [v|]; [|reflexivity].
  destruct v as [| | [] | |[|]|]; reflexivity.
Qed.

Lemma has_array_repr (fs : fields) (k : string) :
  has_array (repr_fields fs) k = has_array fs k.
Proof.
  unfold has_array. rewrite get_repr_fields.
  destruct (get fs k) as [v|]; [|reflexivity].
  destruct v as [| | [] | | |]; reflexivity.
Qed.

Lemma array_field_repr (fs : fields) (k : string) :
  array_field (repr_fields fs) k = map repr (array_field fs k).
Proof.
  unfold array_field. rewrite get_repr_fields.
  destruct (get fs k) as [v|]; [|reflexivity].
  destruct v as [| | [] | | |]; reflexivity.
Qed.

Lemma is_stats_child_repr (c : json) : is_stats_child (repr c) = is_stats_child c.
Proof.
  destruct c as [| | [] | | |fs]; try reflexivity.
  rewrite repr_obj. simpl. apply has_array_repr.
Qed.

Lemma find_index_repr (l : list json) :
  find_index is_stats_child (map repr l) = find_index is_stats_child l.
Proof.
  induction l as [|x r IH]; simpl; [reflexivity|].
  rewrite is_stats_child_repr, IH. reflexivity.
Qed.

Lemma size_operand_repr (a : json) :
  finite_asset a = true -> size_operand (repr a) = size_operand a.
Proof.
  destruct a as [| | | | |fs]; try discriminate.
  unfold finite_asset. rewrite repr_obj. simpl. rewrite get_repr_fields.
  destruct (get fs "size") as [v|]; [|reflexivity].
  destruct v as [| | [] | | |]; try discriminate; reflexivity.
Qed.

Lemma finite_no_throw_repr (xs : list json) :
  forallb finite_asset xs = true -> existsb size_throws (map repr xs) = false.
Proof.
  induction xs as [|x r IH]; simpl; [reflexivity|].
  intros H. apply andb_true_iff in H as [Hx Hr].
  rewrite (IH Hr). destruct x as [| | | | |fs]; try discriminate.
  unfold finite_asset in Hx. rewrite repr_obj. simpl. unfold opt_throws.
  rewrite get_repr_fields.
  destruct (get fs "size") as [[| | [] | | |]|]; try discriminate; reflexivity.
Qed.

Lemma Sorted_map_impl {A B} (f : A -> B) (R1 : A -> A -> Prop) (R2 : B -> B -> Prop)
    (P : A -> Prop) (l : list A) :
  (forall x y, P x -> P y -> R1 x y -> R2 (f x) (f y)) ->
  Forall P l -> Sorted R1 l -> Sorted R2 (map f l).
Proof.
  intros HR HP HS. induction HS as [|x r Hs IH Hhd]; simpl; [constructor|].
  inversion HP as [|? ? Px Pr]; subst. constructor; [apply IH; exact Pr|].
  destruct Hhd as [|y r' Hxy]; constructor.
  inversion Pr; subst. apply HR; assumption.
Qed.

Lemma nullish_or_some (v d : json) : v <> JNull -> nullish_or (Some v) d = v.
Proof. destruct v; [contradiction | reflexivity..]. Qed.

Lemma nullish_or_len_not_null (v : option json) (l : list json) :
  nullish_or v (len_json l) <> JNull.
Proof. destruct v as [[]|]; simpl; discriminate. Qed.

Lemma repr_not_null (c : json) :
  c <> JNull -> not_infinite (Some c) = true -> repr c <> JNull.
Proof. destruct c as [| | [] | | |]; simpl; try discriminate; auto. Qed.

Lemma validate_defaults_fixed (fs : fields) (e w : list json) (c d : json) :
  has_array fs "assets" = true ->
  get fs "errors" = Some (JArr e) -> get fs "warnings" = Some (JArr w) ->
  get fs "errorsCount" = Some c -> c <> JNull ->
  get fs "warningsCount" = Some d -> d <> JNull ->
  validate_defaults fs = Ok fs.
Proof.
  intros Ha He Hw Hc Hcn Hd Hdn. unfold validate_defaults. rewrite Ha. cbn [negb].
  rewrite He. cbn [or_array]. rewrite (set_field_get _ _ _ He).
  rewrite Hw. cbn [or_array]. rewrite (set_field_get _ _ _ Hw).
  rewrite Hc, (nullish_or_some c _ Hcn), (set_field_get _ _ _ Hc).
  rewrite Hd, (nullish_or_some d _ Hdn), (set_field_get _ _ _ Hd).
  reflexivity.
Qed.

Lemma sort_and_arrays_fixed {coerced_sub : json -> json -> comparison} (fs : fields) (xs ms cs : list json) :
  get fs "assets" = Some (JArr xs) -> existsb size_throws xs = false ->
  sort (asset_cmp coerced_sub) xs = xs ->
  get fs "modules" = Some (JArr ms) -> get fs "chunks" = Some (JArr cs) ->
  (sort_and_arrays coerced_sub) fs = Ok fs.
Proof.
  intros Ha Hn Hs Hm Hc. unfold sort_and_arrays, has_array, array_field.
  rewrite Ha, (sort_assets_ok _ Hn), Hs, (set_field_get _ _ _ Ha).
  rewrite Hm. cbn [or_array]. rewrite (set_field_get _ _ _ Hm).
  rewrite Hc. cbn [or_array]. rewrite (set_field_get _ _ _ Hc).
  reflexivity.
Qed.

Lemma detect_repr (fs : fields) :
  nonempty_array fs "modules" = true \/
    find_index is_stats_child (array_field fs "children") = None ->
  has_array fs "assets" = true ->
  exists w, detect (JObj (repr_fields fs)) = Ok (SelTop, repr_fields fs, w).
Proof.
  intros Hsel Ha. unfold detect.
  rewrite !nonempty_array_repr, has_array_repr, array_field_repr, find_index_repr.
  destruct (nonempty_array fs "modules"); [eauto|].
  destruct Hsel as [H|H]; [discriminate|]. rewrite H, Ha.
  destruct (nonempty_array fs "children"); eauto.
Qed.

Lemma to_primitive_throws_repr (v : json) :
  to_primitive_throws (repr v) = to_primitive_throws v.
Proof.
  revert v. fix IH 1. intros [| | [] | | xs | fs]; try reflexivity.
  - simpl. revert xs. fix IHl 1. intros [|x r]; [reflexivity|].
    simpl. rewrite IH, IHl. reflexivity.
  - rewrite repr_obj. simpl. rewrite get_repr_fields.
    destruct (get fs "toString"); reflexivity.
Qed.

Lemma count_log_throws_repr (fs : fields) :
  count_log_throws (repr_fields fs) = count_log_throws fs.
Proof.
  unfold count_log_throws. rewrite !get_repr_fields.
  destruct (get fs "warningsCount"), (get fs "errorsCount");
    simpl; rewrite ?to_primitive_throws_repr; reflexivity.
Qed.

Lemma asset_cmp_repr {coerced_sub : json -> json -> comparison} (a b : json) :
  finite_asset a = true -> finite_asset b = true ->
  asset_cmp coerced_sub (repr a) (repr b) = asset_cmp coerced_sub a b.
Proof.
  intros Pa Pb.
  pose proof (valid_asset_has_size _ (finite_asset_valid _ Pa)) as Ha.
  pose proof (valid_asset_has_size _ (finite_asset_valid _ Pb)) as Hb.
  unfold has_size in Ha, Hb.
  destruct (size_operand a) as [ka|] eqn:Ea; [|congruence].
  destruct (size_operand b) as [kb|] eqn:Eb; [|congruence].
  rewrite (asset_cmp_key a b ka kb Ea Eb).
  apply asset_cmp_key; rewrite size_operand_repr; assumption.
Qed.

(** A successful normalisation converted both counts of the report. *)
Lemma getWebpackStatsData_counts {coerced_sub : json -> json -> comparison}
    (raw raw' : json) (s : sel) (fs : fields) :
  getWebpackStatsData coerced_sub raw = Ok (raw', s) ->
  stats_data (raw', s) = Some fs -> count_log_throws fs = false.
Proof.
  intros H Hst. pose proof H as H'.
  unfold getWebpackStatsData in H'.
  destruct (detect raw) as [[[s0 fs0] w]|e] eqn:Ed; [|discriminate].
  destruct (validate_defaults fs0) as [fs1|e] eqn:Ev; [|discriminate].
  destruct (count_log_throws fs1) eqn:Ec; [discriminate|].
  destruct (sort_and_arrays coerced_sub fs1) as [fs2|e] eqn:Es; [|discriminate].
  injection H' as <- <-.
  destruct (getWebpackStatsData_report _ _ _ H) as (fs0' & w' & fs1' & fs2' & Hd' & Hv' & Hs' & Hr & _ & Hst').
  rewrite Ed in Hd'. injection Hd' as <- _.
  rewrite Ev in Hv'. injection Hv' as <-.
  rewrite Es in Hs'. injection Hs' as <-.
  rewrite Hst in Hst'. injection Hst' as ->.
  destruct (validate_defaults_spec _ _ Ev) as (Hha & _ & _ & _ & _ & Hk1).
  assert (Hha1 : has_array fs1 "assets" = true)
    by (unfold has_array in *; rewrite Hk1 by discriminate; exact Hha).
  destruct (sort_and_arrays_spec _ _ Hha1 Es) as (_ & _ & _ & Hk2).
  unfold count_log_throws. rewrite !Hk2 by discriminate. exact Ec.
Qed.

(** C9 (amended).  Let [fs] be a report returned by a successful
    normalisation.  If it has a non-empty [modules] array or none of its
    [children] is an object with an [assets] array, and its asset sizes
    and its two counts are finite numbers (or, for sizes, [null] or
    missing), then normalising the JSON text of the report again selects
    its top level and changes nothing: the second report is the JSON image
    of the first, field for field and in the same order. *)
Theorem C9_normalisation_idempotent (coerced_sub : json -> json -> comparison) (raw raw' : json) (s : sel) (fs : fields) :
  getWebpackStatsData coerced_sub raw = Ok (raw', s) ->
  stats_data (raw', s) = Some fs ->
  nonempty_array fs "modules" = true \/
    find_index is_stats_child (array_field fs "children") = None ->
  forallb finite_asset (array_field fs "assets") = true ->
  not_infinite (get fs "errorsCount") = true ->
  not_infinite (get fs "warningsCount") = true ->
  getWebpackStatsData coerced_sub (repr (JObj fs)) = Ok (repr (JObj fs), SelTop).
Proof.
  intros H Hst Hsel Hfin Hie Hiw.
  destruct (getWebpackStatsData_report _ _ _ H)
    as (fs0 & w & fs1 & fs2 & Hd & Hv & Hs & -> & _ & Hst').
  rewrite Hst in Hst'. injection Hst' as <-.
  destruct (validate_defaults_spec _ _ Hv) as (Hha & He & Hw & Hec & Hwc & Hk1).
  assert (Hha1 : has_array fs1 "assets" = true).
  { unfold has_array in *. rewrite Hk1 by discriminate. exact Hha. }
  destruct (sort_and_arrays_spec _ _ Hha1 Hs) as (Ha & Hm & Hc & Hk2).
  rewrite <- Hk2 in He, Hw, Hec, Hwc by discriminate.
  set (ys0 := array_field fs1 "assets") in Ha.
  set (xs := sort (asset_cmp coerced_sub) ys0) in Ha.
  assert (Hxs : array_field fs "assets" = xs) by (unfold array_field; rewrite Ha; reflexivity).
  rewrite Hxs in Hfin.
  assert (HF : Forall (fun a => finite_asset a = true) xs)
    by (apply Forall_forall; apply (proj1 (forallb_forall _ _) Hfin)).
  assert (Hsz : Forall has_size ys0).
  { apply (Permutation_Forall (Permutation_sym (sort_perm _ (asset_cmp coerced_sub) ys0))).
    eapply Forall_impl; [|exact HF].
    intros a Ha'. apply valid_asset_has_size, finite_asset_valid, Ha'. }
  assert (Hsorted : Sorted (before (asset_cmp coerced_sub)) (map repr xs)).
  { apply (Sorted_map_impl repr (before (asset_cmp coerced_sub)) _ (fun a => finite_asset a = true)).
    - intros a b Pa Pb. unfold before. rewrite (asset_cmp_repr a b Pa Pb). auto.
    - exact HF.
    - apply (sort_sorted _ (asset_cmp coerced_sub) has_size); [|exact Hsz].
      intros x y Hx Hy. apply asset_cmp_opp; assumption. }
  rewrite repr_obj.
  destruct (detect_repr fs Hsel) as [w' Hd']; [unfold has_array; rewrite Ha; reflexivity|].
  pose proof (getWebpackStatsData_counts _ _ _ _ H Hst) as Hcl.
  unfold getWebpackStatsData. rewrite Hd'.
  rewrite (validate_defaults_fixed (repr_fields fs)
             (map repr (array_field fs0 "errors")) (map repr (array_field fs0 "warnings"))
             (repr (nullish_or (get fs0 "errorsCount") (len_json (array_field fs0 "errors"))))
             (repr (nullish_or (get fs0 "warningsCount") (len_json (array_field fs0 "warnings"))))).
  - rewrite count_log_throws_repr, Hcl.
    rewrite (sort_and_arrays_fixed (repr_fields fs) (map repr xs)
               (map repr (array_field fs1 "modules")) (map repr (array_field fs1 "chunks"))).
    + reflexivity.
    + rewrite get_repr_fields, Ha. reflexivity.
    + apply finite_no_throw_repr. exact Hfin.
    + exact (sort_sorted_id _ (asset_cmp coerced_sub) _ Hsorted).
    + rewrite get_repr_fields, Hm. reflexivity.
    + rewrite get_repr_fields, Hc. reflexivity.
  - rewrite has_array_repr. unfold has_array. rewrite Ha. reflexivity.
  - rewrite get_repr_fields, He. reflexivity.
  - rewrite get_repr_fields, Hw. reflexivity.
  - rewrite get_repr_fields, Hec. reflexivity.
  - apply repr_not_null; [apply nullish_or_len_not_null | rewrite <- Hec; exact Hie].
  - rewrite get_repr_fields, Hwc. reflexivity.
  - apply repr_not_null; [apply nullish_or_len_not_null | rewrite <- Hwc; exact Hiw].
Qed.

(** C9: a report that keeps a child compilation with an [assets] array is
    not a fixed point: normalising it again selects that child, whose
    assets differ from the report's. *)
Lemma C9_nested_child_reselected :
  exists raw' fs raw'' s' fs'',
    getWebpackStatsData nan_coercion nested_doc = Ok (raw', SelChild 0) /\
    stats_data (raw', SelChild 0) = Some fs /\
    getWebpackStatsData nan_coercion (repr (JObj fs)) = Ok (raw'', s') /\
    s' = SelChild 0 /\
    stats_data (raw'', s') = Some fs'' /\
    get fs'' "assets" <> get (repr_fields fs) "assets".
Proof.
  do 5 eexists. split; [reflexivity|]. split; [reflexivity|].
  split; [reflexivity|]. split; [reflexivity|]. split; [reflexivity|].
  discriminate.
Qed.

(** C9: a witness on a single-build document. *)
Lemma C9_witness :
  exists raw' fs,
    getWebpackStatsData nan_coercion (JObj single_doc) = Ok (raw', SelTop) /\
    stats_data (raw', SelTop) = Some fs /\
    getWebpackStatsData nan_coercion (repr (JObj fs)) = Ok (repr (JObj fs), SelTop).
Proof.
  do 2 eexists. split; [reflexivity|]. split; [reflexivity|].
  eapply (C9_normalisation_idempotent nan_coercion (JObj single_doc) _ SelTop);
    [reflexivity | reflexivity | right; reflexivity | reflexivity | reflexivity
    | reflexivity].
Defined.

(** ** Structure of the resolvers *)

Lemma fold_set_add (l acc : list loc) :
  fold_left set_add l acc = app acc (dedup_from acc l).
Proof.
  revert acc. induction l as [|x r IH]; intros acc; simpl.
  - rewrite app_nil_r. reflexivity.
  - unfold set_add at 2. destruct (existsb (Nat.eqb x) acc).
    + apply IH.
    + rewrite IH, <- app_assoc. reflexivity.
Qed.

Lemma dedup_from_spec (seen l : list loc) :
  NoDup (dedup_from seen l) /\
  (forall x, In x (dedup_from seen l) -> In x l /\ ~ In x seen).
Proof.
  revert seen. induction l as [|x r IH]; intros seen; simpl.
  - split; [constructor | contradiction].
  - destruct (existsb (Nat.eqb x) seen) eqn:E.
    + destruct (IH seen) as [Hn Hin]. split; [exact Hn|].
      intros y Hy. destruct (Hin y Hy). auto.
    + destruct (IH (app seen [x])) as [Hn Hin].
      assert (Hx : ~ In x seen).
      { intros Hx.
        assert (existsb (Nat.eqb x) seen = true)
          by (apply existsb_exists; exists x; split; [exact Hx | apply Nat.eqb_refl]).
        congruence. }
      split.
      * constructor; [|exact Hn].
        intros Hx'. destruct (Hin x Hx') as [_ H]. apply H, in_or_app. simpl. auto.
      * intros y [<-|Hy]; [auto|].
        destruct (Hin y Hy) as [H1 H2]. split; [auto|].
        intros H. apply H2, in_or_app. auto.
Qed.

Lemma fold_chunks (a : asset) (chs : list chunk) (acc : list loc) :
  fold_left
    (fun acc ch =>
       if existsb (same_value_zero (c_id ch)) (a_chunks a) then
         match c_modules ch with
         | Some ms => fold_left set_add ms acc
         | None => acc
         end
       else acc) chs acc =
  fold_left set_add
    (flat_map
       (fun ch =>
          if in_asset_chunks a (c_id ch) then
            match c_modules ch with Some ms => ms | None => [] end
          else []) chs) acc.
Proof.
  revert acc. induction chs as [|ch r IH]; intros acc; simpl; [reflexivity|].
  rewrite fold_left_app.
  change (in_asset_chunks a (c_id ch)) with (existsb (same_value_zero (c_id ch)) (a_chunks a)).
  destruct (existsb (same_value_zero (c_id ch)) (a_chunks a));
    [destruct (c_modules ch)|]; apply IH.
Qed.

Lemma fold_fallback (h : heap) (a : asset) (l acc : list loc) :
  fold_left
    (fun acc l =>
       if existsb (fun id => existsb (same_value_zero id) (a_chunks a)) (m_chunks (h l))
       then set_add acc l else acc) l acc =
  fold_left set_add
    (filter (fun l => existsb (in_asset_chunks a) (m_chunks (h l))) l) acc.
Proof.
  revert acc. induction l as [|x r IH]; intros acc; simpl; [reflexivity|].
  change (existsb (fun id => existsb (same_value_zero id) (a_chunks a)) (m_chunks (h x)))
    with (existsb (in_asset_chunks a) (m_chunks (h x))).
  destruct (existsb (in_asset_chunks a) (m_chunks (h x))); apply IH.
Qed.

(** The asset found, then the modules of its chunks, else the fallback. *)
Lemma getModulesForAsset_found (st : report) (h : heap) (name : string) (a : asset) :
  find (fun a => String.eqb (a_name a) name) (r_assets st) = Some a ->
  getModulesForAsset st h name =
  sort_modules h
    (match dedup_from [] (chunk_modules st a) with
     | [] => dedup_from [] (fallback_modules st h a)
     | c => c
     end).
Proof.
  intros Hf. unfold getModulesForAsset. rewrite Hf. cbv beta zeta.
  rewrite fold_chunks, fold_set_add. unfold chunk_modules. simpl app.
  destruct (dedup_from [] _) eqn:E; [|reflexivity].
  rewrite fold_fallback, fold_set_add. reflexivity.
Qed.

Lemma sort_modules_perm (h : heap) (ms : list loc) : Permutation ms (sort_modules h ms).
Proof. apply sort_perm. Qed.

(** ** Claims on [getModulesForAsset] *)

(** C2 (amended).  For the first asset named [name], [getModulesForAsset]
    returns the modules inlined in the chunks whose id is in the asset's
    [chunks] under exact ([SameValueZero]) equality, so that the number 0
    and the string "0" do not match, without repetition (first
    occurrences kept); only when there is none, the modules of
    [statsData.modules] with a chunk id in the asset's [chunks], again
    without repetition; in both cases sorted non-increasing by
    [size ?? 0]. *)
Theorem C2_asset_modules (st : report) (h : heap) (name : string) (a : asset) :
  find (fun a => String.eqb (a_name a) name) (r_assets st) = Some a ->
  getModulesForAsset st h name =
    sort_modules h
      (match dedup_from [] (chunk_modules st a) with
       | [] => dedup_from [] (fallback_modules st h a)
       | c => c
       end) /\
  NoDup (getModulesForAsset st h name) /\
  Sorted (fun x y => num_le (module_key h y) (module_key h x))
    (getModulesForAsset st h name).
Proof.
  intros Hf. rewrite (getModulesForAsset_found st h name a Hf).
  split; [reflexivity|]. split; [|apply sort_modules_sorted].
  eapply Permutation_NoDup; [apply sort_modules_perm|].
  destruct (dedup_from [] (chunk_modules st a)) as [|x r] eqn:E.
  - apply dedup_from_spec.
  - rewrite <- E. apply dedup_from_spec.
Qed.

(** C2: chunk id 0 and the asset's chunk reference "0" have the same
    string form, but the inlined modules of that chunk are not returned. *)
Lemma C2_string_chunk_ref_not_matched :
  js_string (IdStr "0") = js_string (IdNum (Fin 0)) /\
  chunk_modules mixed_id_report (mkAsset "main.js" None [IdStr "0"]) = [] /\
  getModulesForAsset mixed_id_report example_heap "main.js" = [].
Proof. repeat split; reflexivity. Qed.

(** C2: a witness on the example of the specification. *)
Lemma C2_witness :
  getModulesForAsset example_report example_heap "main.js" = [0; 1] /\
  NoDup [0; 1] /\
  Sorted (fun x y => num_le (module_key example_heap y) (module_key example_heap x))
    [0; 1].
Proof.
  destruct (C2_asset_modules example_report example_heap "main.js"
              (mkAsset "main.js" (Some (Fin 5000)) [IdNum (Fin 0)]) eq_refl)
    as (E & Hn & Hs).
  assert (R : getModulesForAsset example_report example_heap "main.js" = [0; 1])
    by reflexivity.
  rewrite R in Hn, Hs. split; [exact R|]. split; assumption.
Defined.

(** C5 (amended).  [getModulesForAsset] is total on a normalised report:
    it returns [] when no asset has the name, and when [statsData.chunks]
    is empty it returns the modules of [statsData.modules] that share a
    chunk id with the asset, without repetition and sorted, which is not
    empty in general. *)
Theorem C5_asset_modules_total (st : report) (h : heap) (name : string) :
  (find (fun a => String.eqb (a_name a) name) (r_assets st) = None ->
     getModulesForAsset st h name = []) /\
  (forall a, find (fun a => String.eqb (a_name a) name) (r_assets st) = Some a ->
     r_chunks st = [] ->
     getModulesForAsset st h name = sort_modules h (dedup_from [] (fallback_modules st h a))).
Proof.
  split.
  - intros Hf. unfold getModulesForAsset. rewrite Hf. reflexivity.
  - intros a Hf Hc. rewrite (getModulesForAsset_found st h name a Hf).
    unfold chunk_modules. rewrite Hc. reflexivity.
Qed.

(** C5: with no chunks, an asset whose chunk is named by the modules gets
    those modules, not []. *)
Lemma C5_empty_chunks_fallback :
  r_chunks no_chunk_report = [] /\
  getModulesForAsset no_chunk_report example_heap "main.js" = [0; 1].
Proof. split; reflexivity. Qed.

(** ** Claims on the [/api/module-dependencies] route *)

Lemma fold_issuers (tm : module) (h : heap) (l acc : list loc) :
  fold_left
    (fun acc c =>
       if issuer_id_matches tm (h c) then app acc [c]
       else if issuer_matches tm (h c) then app acc [c]
       else acc) l acc =
  app acc (filter (fun c => issuer_id_matches tm (h c) || issuer_matches tm (h c)) l).
Proof.
  revert acc. induction l as [|x r IH]; intros acc; simpl.
  - rewrite app_nil_r. reflexivity.
  - destruct (issuer_id_matches tm (h x)); simpl;
      [|destruct (issuer_matches tm (h x))];
      rewrite IH; rewrite <- ?app_assoc; reflexivity.
Qed.

(** C3 (amended).  For a reference resolved to a target module: when the
    target's [modules] is a non-empty array, the route returns exactly
    those modules sorted by size; otherwise it returns the modules of
    [statsData.modules], in their order and sorted by size, whose
    [issuerId] and the target's [id] are both present with equal string
    forms, or whose [issuer] equals the target's [identifier] when that
    identifier is non-empty; each listed module is taken at most once per
    occurrence in [statsData.modules]. *)
Theorem C3_module_dependents (st : report) (h : heap) (ref : string) (t : loc) :
  findTarget st h ref = Some t ->
  (forall ms, m_modules (h t) = Some ms -> ms <> [] ->
     fst (moduleDependencies st h ref) = sort_modules h ms) /\
  ((forall ms, m_modules (h t) = Some ms -> ms = []) ->
     fst (moduleDependencies st h ref) =
     sort_modules h
       (filter (fun c => issuer_id_matches (h t) (h c) || issuer_matches (h t) (h c))
          (r_modules st))).
Proof.
  intros Hf. unfold moduleDependencies. rewrite Hf. unfold directDependencies.
  cbv zeta. split.
  - intros ms Hm Hne. rewrite Hm. destruct ms as [|x r]; [contradiction|]. reflexivity.
  - intros Hm. destruct (m_modules (h t)) as [[|x r]|] eqn:E.
    + simpl fst. rewrite fold_issuers. reflexivity.
    + specialize (Hm _ eq_refl). discriminate.
    + simpl fst. rewrite fold_issuers. reflexivity.
Qed.

(** C3: an empty [identifier] never matches, not even an empty
    [issuer]. *)
Lemma C3_empty_identifier_not_matched :
  findTarget empty_ident_report empty_ident_heap "./x.js" = Some 0 /\
  m_issuer (empty_ident_heap 1) = m_identifier (empty_ident_heap 0) /\
  fst (moduleDependencies empty_ident_report empty_ident_heap "./x.js") = [].
Proof. repeat split; reflexivity. Qed.

(** C3: a witness on the example of the specification, [b.js] found
    through its [issuerId]. *)
Lemma C3_witness :
  findTarget example_report example_heap "./a.js" = Some 0 /\
  fst (moduleDependencies example_report example_heap "./a.js") =
  sort_modules example_heap
    (filter (fun c => issuer_id_matches (example_heap 0) (example_heap c)
                      || issuer_matches (example_heap 0) (example_heap c))
       (r_modules example_report)).
Proof.
  split; [reflexivity|].
  apply (proj2 (C3_module_dependents example_report example_heap "./a.js" 0 eq_refl)).
  intros ms Hm. discriminate.
Defined.

(** C4: the route parameter is a string and [modulesById] is keyed by the
    raw id, so a module with the numeric id 1 is not found from "1"; the
    route answers [] where [b.js], whose [issuerId] is 1, is a dependent
    of that module. *)
Theorem C4_numeric_id_not_found :
  m_id (example_heap 0) = Some (IdNum (Fin 1)) /\
  js_string (IdNum (Fin 1)) = "1" /\
  findTarget example_report example_heap "1" = None /\
  fst (moduleDependencies example_report example_heap "1") = [] /\
  fst (moduleDependencies example_report example_heap "./a.js") = [1].
Proof. repeat split; reflexivity. Qed.

(** C8: in the concatenation case the route sorts the target's own
    [modules] array: after the call the nested modules of [c.js] are
    listed in the other order. *)
Theorem C8_concatenated_modules_reordered :
  findTarget concat_report concat_heap "./c.js" = Some 2 /\
  m_modules (concat_heap 2) = Some [1; 0] /\
  fst (moduleDependencies concat_report concat_heap "./c.js") = [0; 1] /\
  m_modules (snd (moduleDependencies concat_report concat_heap "./c.js") 2) = Some [0; 1].
Proof. repeat split; reflexivity. Qed.

(** ** Lookup maps *)

Section IndexBy.
Context {K V : Type}.
Variable eqk : K -> K -> bool.
Hypothesis eqk_spec : forall a b, eqk a b = true <-> a = b.
Variable key : V -> option K.

Definition hit (v : V) (k : K) : bool :=
  match key v with Some kv => eqk kv k | None => false end.

Lemma hit_spec (v : V) (k : K) : hit v k = true <-> key v = Some k.
Proof.
  unfold hit. destruct (key v) as [kv|].
  - rewrite eqk_spec. split; [intros ->|intros H; injection H]; auto.
  - split; discriminate.
Qed.

Lemma map_get_set (m : list (K * V)) (k k' : K) (v : V) :
  map_get eqk (map_set eqk m k v) k' =
  if eqk k k' then Some v else map_get eqk m k'.
Proof.
  induction m as [|[k0 v0] r IH]; simpl; [destruct (eqk k k'); reflexivity|].
  destruct (eqk k0 k) eqn:E0.
  - apply eqk_spec in E0. subst k0. simpl. destruct (eqk k k'); reflexivity.
  - simpl. rewrite IH. destruct (eqk k0 k') eqn:E1; [|reflexivity].
    destruct (eqk k k') eqn:E2; [|reflexivity].
    apply eqk_spec in E1. apply eqk_spec in E2. subst. rewrite (proj2 (eqk_spec k' k') eq_refl) in E0.
    discriminate.
Qed.

Lemma index_by_snoc (vs : list V) (x : V) (m0 : list (K * V)) (k : K) :
  map_get eqk (index_by eqk key (app vs [x]) m0) k =
  if hit x k then Some x else map_get eqk (index_by eqk key vs m0) k.
Proof.
  unfold index_by. rewrite fold_left_app. simpl. unfold hit.
  destruct (key x) as [kx|]; [apply map_get_set | reflexivity].
Qed.

Lemma snoc_decomp (vs pre post : list V) (x v : V) :
  app vs [x] = app pre (v :: post) ->
  (post = [] /\ v = x /\ pre = vs) \/
  (exists post', post = app post' [x] /\ vs = app pre (v :: post')).
Proof.
  intros E. destruct post as [|y r] using rev_ind.
  - left. apply app_inj_tail in E as [-> ->]. auto.
  - right. exists r. split; [|].
    + rewrite app_comm_cons, app_assoc in E. apply app_inj_tail in E as [_ ->]. reflexivity.
    + rewrite app_comm_cons, app_assoc in E. apply app_inj_tail in E as [-> _]. reflexivity.
Qed.

Lemma index_by_some (vs : list V) (k : K) (v : V) :
  map_get eqk (index_by eqk key vs []) k = Some v <->
  exists pre post, vs = app pre (v :: post) /\ key v = Some k /\
                   Forall (fun v' => key v' <> Some k) post.
Proof.
  induction vs as [|x vs IH] using rev_ind.
  - simpl. split; [discriminate|].
    intros (pre & post & E & _). destruct pre; discriminate.
  - rewrite index_by_snoc. destruct (hit x k) eqn:H.
    + apply hit_spec in H. split.
      * intros E. injection E as <-. exists vs, []. auto.
      * intros (pre & post & E & Hk & Hf).
        destruct (snoc_decomp _ _ _ _ _ E) as [(_ & -> & _)|(post' & -> & _)]; [reflexivity|].
        apply Forall_app in Hf as [_ Hf]. inversion Hf. contradiction.
    + assert (Hx : key x <> Some k) by (intros Hx; apply hit_spec in Hx; congruence).
      rewrite IH. split.
      * intros (pre & post & E & Hk & Hf). exists pre, (app post [x]).
        split; [rewrite E, <- app_assoc; reflexivity|]. split; [exact Hk|].
        apply Forall_app. auto.
      * intros (pre & post & E & Hk & Hf).
        destruct (snoc_decomp _ _ _ _ _ E) as [(_ & -> & _)|(post' & -> & Evs)];
          [contradiction|].
        exists pre, post'. apply Forall_app in Hf as [Hf _]. auto.
Qed.
End IndexBy.

Lemma same_value_zero_spec (a b : jid) : same_value_zero a b = true <-> a = b.
Proof.
  destruct a as [[x| |]|x], b as [[y| |]|y]; simpl;
    try (split; [discriminate | congruence]); try (split; reflexivity).
  - rewrite Z.eqb_eq. split; congruence.
  - rewrite String.eqb_eq. split; congruence.
Qed.

Lemma modulesById_index (h : heap) (mods : list loc) :
  modulesById h mods = index_by same_value_zero (fun l => m_id (h l)) mods [].
Proof. reflexivity. Qed.

Lemma modulesByIdentifier_index (h : heap) (mods : list loc) :
  modulesByIdentifier h mods = index_by String.eqb (identifier_key h) mods [].
Proof.
  unfold modulesByIdentifier, index_by. generalize (@nil (string * loc)).
  induction mods as [|l r IH]; intros m; simpl; [reflexivity|].
  rewrite IH. unfold identifier_key.
  destruct (m_identifier (h l)) as [s|]; [destruct (String.eqb s "")|]; reflexivity.
Qed.

Lemma identifier_key_spec (h : heap) (l : loc) (s : string) :
  identifier_key h l = Some s <-> m_identifier (h l) = Some s /\ s <> "".
Proof.
  unfold identifier_key. destruct (m_identifier (h l)) as [s'|].
  - destruct (String.eqb_spec s' "") as [->|Hne].
    + split; [discriminate|]. intros [H1 H2]. injection H1 as <-. contradiction.
    + split; [intros H; injection H as <-; auto | intros [H _]; congruence].
  - split; [discriminate | intros [H _]; discriminate].
Qed.

(** ** Further properties of the server *)

(** [modulesByIdentifier] files a module of [statsData.modules] under its
    identifier when that is a non-empty string; looking up [s] gives the
    last module in [statsData.modules] whose identifier is [s], and nothing
    for the empty string or an identifier no module has. *)
Theorem modulesByIdentifier_lookup (h : heap) (mods : list loc) (s : string) (l : loc) :
  map_get String.eqb (modulesByIdentifier h mods) s = Some l <->
  exists pre post, mods = app pre (l :: post) /\
    m_identifier (h l) = Some s /\ s <> "" /\
    Forall (fun l' => m_identifier (h l') <> Some s) post.
Proof.
  rewrite modulesByIdentifier_index, (index_by_some String.eqb String.eqb_eq).
  split.
  - intros (pre & post & E & Hk & Hf). apply identifier_key_spec in Hk as [Hk Hne].
    exists pre, post. repeat split; auto.
    eapply Forall_impl; [|exact Hf]. intros l' H1 H2. apply H1, identifier_key_spec. auto.
  - intros (pre & post & E & Hk & Hne & Hf). exists pre, post.
    split; [exact E|]. split; [apply identifier_key_spec; auto|].
    eapply Forall_impl; [|exact Hf]. intros l' H1 H2. apply identifier_key_spec in H2 as [H2 _].
    contradiction.
Qed.

(** [modulesById] files every module with an id under that raw id; looking
    up a key gives the last module in [statsData.modules] whose id is that
    key under [SameValueZero] (a number never equals a string). *)
Theorem modulesById_lookup (h : heap) (mods : list loc) (k : jid) (l : loc) :
  map_get same_value_zero (modulesById h mods) k = Some l <->
  exists pre post, mods = app pre (l :: post) /\ m_id (h l) = Some k /\
    Forall (fun l' => m_id (h l') <> Some k) post.
Proof.
  rewrite modulesById_index.
  apply (index_by_some same_value_zero same_value_zero_spec (fun l => m_id (h l))).
Qed.

Lemma modulesById_in (h : heap) (mods : list loc) (k : jid) (l : loc) :
  map_get same_value_zero (modulesById h mods) k = Some l -> In l mods /\ m_id (h l) = Some k.
Proof.
  rewrite modulesById_index,
    (index_by_some same_value_zero same_value_zero_spec (fun l => m_id (h l))).
  intros (pre & post & -> & Hk & _). split; [apply in_or_app; simpl; auto | exact Hk].
Qed.

Lemma modulesByIdentifier_in (h : heap) (mods : list loc) (s : string) (l : loc) :
  map_get String.eqb (modulesByIdentifier h mods) s = Some l ->
  In l mods /\ m_identifier (h l) = Some s.
Proof.
  rewrite modulesByIdentifier_index, (index_by_some String.eqb String.eqb_eq).
  intros (pre & post & -> & Hk & _). apply identifier_key_spec in Hk as [Hk _].
  split; [apply in_or_app; simpl; auto | exact Hk].
Qed.

(** The target the route resolves a reference to is a module of
    [statsData.modules] whose id is that very string, or whose identifier
    is it, or, for a reference containing '/', whose name is it. *)
Theorem findTarget_sound (st : report) (h : heap) (ref : string) (l : loc) :
  findTarget st h ref = Some l ->
  In l (r_modules st) /\
  (m_id (h l) = Some (IdStr ref) \/ m_identifier (h l) = Some ref \/
   (includes_slash ref = true /\ m_name (h l) = ref)).
Proof.
  unfold findTarget.
  destruct (map_get same_value_zero _ (IdStr ref)) as [l1|] eqn:E1.
  { intros H. injection H as <-. apply modulesById_in in E1 as [Hin Hid]. auto. }
  destruct (map_get String.eqb _ ref) as [l2|] eqn:E2.
  { intros H. injection H as <-. apply modulesByIdentifier_in in E2 as [Hin Hid]. auto. }
  destruct (includes_slash ref) eqn:Es; [|discriminate].
  intros H. apply find_some in H as [Hin Hn]. apply String.eqb_eq in Hn. auto.
Qed.

Lemma findTarget_sound_witness :
  findTarget example_report example_heap "./b.js" = Some 1 /\
  In 1 (r_modules example_report) /\
  (m_id (example_heap 1) = Some (IdStr "./b.js") \/
   m_identifier (example_heap 1) = Some "./b.js" \/
   (includes_slash "./b.js" = true /\ m_name (example_heap 1) = "./b.js")).
Proof.
  split; [reflexivity|]. apply (findTarget_sound example_report example_heap "./b.js" 1).
  reflexivity.
Defined.

(** The dependencies route changes at most one thing: in the
    concatenation case it replaces the target's nested [modules] list by
    the sorted list it returns, a reordering of the old one; otherwise no
    module object changes and every returned module is a module of
    [statsData.modules]. *)
Theorem moduleDependencies_frame (st : report) (h : heap) (ref : string) :
  ((forall l, snd (moduleDependencies st h ref) l = h l) /\
   (forall l, In l (fst (moduleDependencies st h ref)) -> In l (r_modules st))) \/
  (exists t ms, findTarget st h ref = Some t /\ m_modules (h t) = Some ms /\
     fst (moduleDependencies st h ref) = sort_modules h ms /\
     Permutation ms (sort_modules h ms) /\
     snd (moduleDependencies st h ref) t = set_modules (h t) (sort_modules h ms) /\
     (forall l, l <> t -> snd (moduleDependencies st h ref) l = h l)).
Proof.
  unfold moduleDependencies. destruct (findTarget st h ref) as [t|] eqn:Hf.
  2: { left. split; [reflexivity | simpl; contradiction]. }
  unfold directDependencies. cbv zeta.
  assert (Hiss : forall l, In l (sort_modules h (fold_left
      (fun acc c =>
         if issuer_id_matches (h t) (h c) then app acc [c]
         else if issuer_matches (h t) (h c) then app acc [c]
         else acc) (r_modules st) [])) -> In l (r_modules st)).
  { intros l Hl. rewrite fold_issuers in Hl. simpl app in Hl.
    apply (Permutation_in _ (Permutation_sym (sort_modules_perm h _))) in Hl.
    apply filter_In in Hl. exact (proj1 Hl). }
  destruct (m_modules (h t)) as [[|x r]|] eqn:Em.
  - left. split; [reflexivity | exact Hiss].
  - right. exists t, (x :: r). repeat split; auto.
    + apply sort_modules_perm.
    + simpl. unfold upd. rewrite Nat.eqb_refl. reflexivity.
    + intros l Hl. simpl. unfold upd. apply Nat.eqb_neq in Hl. rewrite Hl. reflexivity.
  - left. split; [reflexivity | exact Hiss].
Qed.

(** ** Further properties of [getWebpackStatsData] *)

Lemma detect_err (raw : json) (e : stats_error) :
  detect raw = Err e -> e = ENotObject \/ e = EUnrecognized \/ e = EMultiNoChild.
Proof.
  unfold detect. cbv zeta.
  destruct raw as [| | | | |fs]; try (intros H; inversion H; auto; fail).
  destruct (nonempty_array fs "modules"); [discriminate|].
  destruct (nonempty_array fs "children").
  - destruct (find_index is_stats_child (array_field fs "children")) as [i|].
    + destruct (nth_error (array_field fs "children") i) as [[]|];
        intros H; inversion H; auto.
    + destruct (has_array fs "assets"); intros H; inversion H; auto.
  - destruct (has_array fs "assets"); intros H; inversion H; auto.
Qed.

Lemma find_index_some_nth {A} (p : A -> bool) (l : list A) (i : nat) :
  find_index p l = Some i -> exists x, nth_error l i = Some x /\ p x = true.
Proof.
  revert i. induction l as [|y r IH]; intros i; simpl; [discriminate|].
  destruct (p y) eqn:Ey.
  - intros H. injection H as <-. exists y. auto.
  - destruct (find_index p r) as [j|] eqn:Ej; simpl; [|discriminate].
    intros H. injection H as <-. simpl. apply IH. reflexivity.
Qed.

(** Only the top-level object selected for its [modules] can lack an
    [assets] array. *)
Lemma detect_no_assets (raw : json) (s : sel) (fs0 : fields) (w : bool) :
  detect raw = Ok (s, fs0, w) -> has_array fs0 "assets" = false ->
  raw = JObj fs0 /\ s = SelTop /\ nonempty_array fs0 "modules" = true.
Proof.
  unfold detect. cbv zeta.
  destruct raw as [| | | | |fs]; try discriminate.
  destruct (nonempty_array fs "modules") eqn:Em.
  { intros H. injection H as <- <- _. auto. }
  destruct (nonempty_array fs "children").
  - destruct (find_index is_stats_child (array_field fs "children")) as [i|] eqn:Ef.
    + destruct (nth_error (array_field fs "children") i) as [[| | | | |cfs]|] eqn:En;
        try discriminate.
      intros H. injection H as <- <- _. intros Ha.
      apply find_index_some_nth in Ef as (c & Ec & Hc). rewrite En in Ec.
      injection Ec as <-. simpl in Hc. congruence.
    + destruct (has_array fs "assets") eqn:Ea; [|discriminate].
      intros H. injection H as <- <- _. congruence.
  - destruct (has_array fs "assets") eqn:Ea; [|discriminate].
    intros H. injection H as <- <- _. congruence.
Qed.

Lemma validate_defaults_err (fs : fields) (e : stats_error) :
  validate_defaults fs = Err e -> e = EInvalidFormat /\ has_array fs "assets" = false.
Proof.
  unfold validate_defaults. destruct (has_array fs "assets"); simpl; [discriminate|].
  intros H. injection H as <-. auto.
Qed.

Lemma sort_and_arrays_err {coerced_sub : json -> json -> comparison} (fs1 : fields) (e : stats_error) :
  has_array fs1 "assets" = true ->
  (sort_and_arrays coerced_sub) fs1 = Err e <->
  e = ETypeError /\ 2 <= List.length (array_field fs1 "assets") /\
  exists a, In a (array_field fs1 "assets") /\ size_throws a = true.
Proof.
  intros Ha. unfold sort_and_arrays, sort_assets. rewrite Ha.
  rewrite <- existsb_exists, <- Nat.leb_le.
  destruct (Nat.leb 2 (List.length (array_field fs1 "assets"))),
    (existsb size_throws (array_field fs1 "assets")); simpl;
    split; try discriminate; try (intros (_ & H1 & H2); discriminate).
  - intros H. injection H as <-. auto.
  - intros (-> & _). reflexivity.
Qed.

Lemma validate_keeps (fs0 fs1 : fields) (k : string) :
  validate_defaults fs0 = Ok fs1 ->
  k <> "errors" -> k <> "warnings" -> k <> "errorsCount" -> k <> "warningsCount" ->
  get fs1 k = get fs0 k.
Proof. intros Hv. apply (validate_defaults_spec _ _ Hv). Qed.

(** Normalisation crashes outside its [try] block with a [TypeError]
    exactly when the selected object has an [assets] array and either
    [errorsCount] or [warningsCount] does not convert to a string (the log
    line after the [try] block), or the [assets] array has two elements or
    more of which one is [null] or has a size that does not convert (the
    sort comparator). *)
Theorem getWebpackStatsData_type_error (coerced_sub : json -> json -> comparison) (raw : json) :
  getWebpackStatsData coerced_sub raw = Err (Uncaught ETypeError) <->
  exists s fs0 w, detect raw = Ok (s, fs0, w) /\ has_array fs0 "assets" = true /\
    (count_log_throws fs0 = true \/
     (2 <= List.length (array_field fs0 "assets") /\
      exists a, In a (array_field fs0 "assets") /\ size_throws a = true)).
Proof.
  unfold getWebpackStatsData.
  destruct (detect raw) as [[[s fs0] w]|e] eqn:Ed.
  2: { split; [unfold catch_error; destruct (catch_rethrows e); discriminate|].
       intros (? & ? & ? & H & _). discriminate. }
  destruct (validate_defaults fs0) as [fs1|e] eqn:Ev.
  - pose proof (validate_defaults_spec _ _ Ev) as (Hha & _).
    assert (Haf : array_field fs1 "assets" = array_field fs0 "assets")
      by (unfold array_field; rewrite (validate_keeps _ _ _ Ev) by discriminate; reflexivity).
    assert (Hha1 : has_array fs1 "assets" = true)
      by (unfold has_array; rewrite (validate_keeps _ _ _ Ev) by discriminate; exact Hha).
    rewrite (count_log_throws_validate _ _ Ev).
    destruct (count_log_throws fs0) eqn:Ec.
    + split; [intros _; exists s, fs0, w; auto | reflexivity].
    + split.
      * destruct ((sort_and_arrays coerced_sub) fs1) as [fs2|e] eqn:Es; [discriminate|].
        intros H. injection H as ->.
        apply (sort_and_arrays_err _ _ Hha1) in Es as (_ & H1 & H2).
        rewrite Haf in H1, H2. exists s, fs0, w. auto.
      * intros (s' & fs0' & w' & Hd & _ & [H|(H1 & H2)]); injection Hd as <- <- <-;
          [congruence|].
        rewrite <- Haf in H1, H2.
        assert (Es : (sort_and_arrays coerced_sub) fs1 = Err ETypeError)
          by (apply (sort_and_arrays_err _ _ Hha1); auto).
        rewrite Es. reflexivity.
  - apply validate_defaults_err in Ev as [-> Ha]. split; [discriminate|].
    intros (s' & fs0' & w' & Hd & Ha' & _). injection Hd as <- <- <-. congruence.
Qed.

(** An asset size [{"toString": 0}] makes the sort comparator throw. *)
Lemma getWebpackStatsData_type_error_witness :
  getWebpackStatsData nan_coercion
    (JObj [("assets", JArr [JObj [("name", JStr "a"); ("size", JObj [("toString", JNum (Fin 0))])];
                            asset_json "b" (Fin 1)])]) =
    Err (Uncaught ETypeError).
Proof.
  apply (proj2 (getWebpackStatsData_type_error nan_coercion _)).
  do 3 eexists. split; [reflexivity|]. split; [reflexivity|].
  right. split; [simpl; lia|].
  eexists. split; [left; reflexivity | reflexivity].
Defined.

(** After a successful normalisation the report's [assets] is a
    reordering of the selected object's [assets] array (nothing added or
    dropped), and its [modules] and [chunks] are the selected object's
    arrays, or [] where that field is missing or not an array. *)
Theorem getWebpackStatsData_arrays (coerced_sub : json -> json -> comparison) (raw raw' : json) (s : sel) (fs0 : fields) (w : bool)
    (fs' : fields) :
  detect raw = Ok (s, fs0, w) ->
  getWebpackStatsData coerced_sub raw = Ok (raw', s) ->
  stats_data (raw', s) = Some fs' ->
  (exists xs, get fs' "assets" = Some (JArr xs) /\
              Permutation (array_field fs0 "assets") xs) /\
  get fs' "modules" = Some (JArr (array_field fs0 "modules")) /\
  get fs' "chunks" = Some (JArr (array_field fs0 "chunks")).
Proof.
  intros Hd H Hst.
  destruct (getWebpackStatsData_report _ _ _ H)
    as (fs0' & w' & fs1 & fs2 & Hd' & Hv & Hs & -> & _ & Hst').
  rewrite Hd in Hd'. injection Hd' as <- _.
  rewrite Hst in Hst'. injection Hst' as ->.
  pose proof (validate_defaults_spec _ _ Hv) as (Hha & _).
  assert (Hha1 : has_array fs1 "assets" = true)
    by (unfold has_array; rewrite (validate_keeps _ _ _ Hv) by discriminate; exact Hha).
  destruct (sort_and_arrays_spec _ _ Hha1 Hs) as (Ha & Hm & Hc & _).
  assert (Hk : forall k, k <> "errors" -> k <> "warnings" -> k <> "errorsCount" ->
                        k <> "warningsCount" -> array_field fs1 k = array_field fs0 k)
    by (intros k H1 H2 H3 H4; unfold array_field;
        rewrite (validate_keeps _ _ _ Hv H1 H2 H3 H4); reflexivity).
  rewrite !Hk in Ha, Hm, Hc by discriminate.
  split; [|split; assumption].
  eexists. split; [exact Ha|]. apply sort_perm.
Qed.

Lemma getWebpackStatsData_arrays_witness :
  detect (JObj single_doc) = Ok (SelTop, single_doc, false) /\
  (exists r, getWebpackStatsData nan_coercion (JObj single_doc) = Ok (r, SelTop) /\
   exists fs', stats_data (r, SelTop) = Some fs' /\
   get fs' "modules" = Some (JArr (array_field single_doc "modules"))).
Proof.
  split; [reflexivity|].
  eexists. split; [reflexivity|]. eexists. split; [reflexivity|].
  exact (proj1 (proj2 (getWebpackStatsData_arrays nan_coercion (JObj single_doc) _ SelTop single_doc
                  false _ eq_refl eq_refl eq_refl))).
Defined.

(** The errors normalisation can end in: [NotAnObject], the unrecognised
    structure and the invalid format error are re-thrown as they are; the
    multi-build error is wrapped into the generic parse error; a
    [TypeError] after the [try] block (a count in the log line, or the
    sort comparator) escapes the [catch]. *)
Theorem getWebpackStatsData_errors (coerced_sub : json -> json -> comparison) (raw : json) (e : ingest_error) :
  getWebpackStatsData coerced_sub raw = Err e ->
  e = Rethrown ENotObject \/ e = Rethrown EUnrecognized \/
  e = Rethrown EInvalidFormat \/ e = Wrapped EMultiNoChild \/ e = Uncaught ETypeError.
Proof.
  unfold getWebpackStatsData.
  destruct (detect raw) as [[[s fs0] w]|e0] eqn:Ed.
  - destruct (validate_defaults fs0) as [fs1|e0] eqn:Ev.
    + destruct (count_log_throws fs1); [intros H; injection H as <-; auto|].
      destruct ((sort_and_arrays coerced_sub) fs1) as [fs2|e0] eqn:Es; [discriminate|].
      pose proof (validate_defaults_spec _ _ Ev) as (Hha & _).
      assert (Hha1 : has_array fs1 "assets" = true)
        by (unfold has_array; rewrite (validate_keeps _ _ _ Ev) by discriminate; exact Hha).
      apply (sort_and_arrays_err _ _ Hha1) in Es as (-> & _).
      intros H. injection H as <-. auto.
    + apply validate_defaults_err in Ev as [-> _].
      intros H. injection H as <-. auto.
  - apply detect_err in Ed as [-> | [-> | ->]]; intros H; injection H as <-; auto.
Qed.

Lemma getWebpackStatsData_errors_witness :
  getWebpackStatsData nan_coercion (JObj multi_doc_no_child) = Err (Wrapped EMultiNoChild) /\
  (Wrapped EMultiNoChild = Rethrown ENotObject \/ Wrapped EMultiNoChild = Rethrown EUnrecognized \/
   Wrapped EMultiNoChild = Rethrown EInvalidFormat \/
   Wrapped EMultiNoChild = Wrapped EMultiNoChild \/
   Wrapped EMultiNoChild = Uncaught ETypeError).
Proof.
  split; [reflexivity|].
  apply (getWebpackStatsData_errors nan_coercion (JObj multi_doc_no_child)). reflexivity.
Defined.

(** The invalid format error occurs exactly for an object whose non-empty
    [modules] array selects it while it has no [assets] array: a child or
    a fallback is only selected with an [assets] array. *)
Theorem getWebpackStatsData_invalid_format (coerced_sub : json -> json -> comparison) (raw : json) :
  getWebpackStatsData coerced_sub raw = Err (Rethrown EInvalidFormat) <->
  exists fs, raw = JObj fs /\ nonempty_array fs "modules" = true /\
             has_array fs "assets" = false.
Proof.
  split.
  - unfold getWebpackStatsData.
    destruct (detect raw) as [[[s fs0] w]|e0] eqn:Ed.
    + destruct (validate_defaults fs0) as [fs1|e0] eqn:Ev.
      * destruct (count_log_throws fs1); [discriminate|].
        destruct ((sort_and_arrays coerced_sub) fs1); discriminate.
      * apply validate_defaults_err in Ev as [-> Ha]. intros _.
        destruct (detect_no_assets _ _ _ _ Ed Ha) as (-> & _ & Hm). eauto.
    + unfold catch_error. intros H.
      destruct (catch_rethrows e0); [|discriminate].
      injection H as ->. apply detect_err in Ed. intuition discriminate.
  - intros (fs & -> & Hm & Ha). unfold getWebpackStatsData, detect. rewrite Hm.
    unfold validate_defaults. rewrite Ha. reflexivity.
Qed.

(** ** The filter worker *)

Lemma includes_empty (s : string) : includes s "" = true.
Proof. destruct s; reflexivity. Qed.

Section WorkerFacts.
Variable regex_test : string -> string -> option bool.
Variable lt_coerced : json -> num -> bool.

Lemma hidden_by_false (name : string) (filters : list json) :
  hidden_by regex_test name filters = false <->
  forall f, In (JStr f) filters ->
    if regex_filter f then regex_test (regex_source f) name <> Some true
    else includes name f = false.
Proof.
  induction filters as [|x r IH]; simpl.
  - split; [intros _ f []|reflexivity].
  - destruct x as [| | | f | |];
      try (rewrite IH; split;
           [intros H f' [Hf|Hf]; [discriminate|exact (H f' Hf)]
           |intros H f' Hf; exact (H f' (or_intror Hf))]).
    destruct (regex_filter f) eqn:Er.
    + destruct (regex_test (regex_source f) name) as [[]|] eqn:Et.
      * split; [discriminate|]. intros H. specialize (H f (or_introl eq_refl)).
        rewrite Er in H. contradiction.
      * rewrite IH. split.
        -- intros H f' [Hf|Hf]; [injection Hf as <-; rewrite Er, Et; discriminate|exact (H f' Hf)].
        -- intros H f' Hf. exact (H f' (or_intror Hf)).
      * rewrite IH. split.
        -- intros H f' [Hf|Hf]; [injection Hf as <-; rewrite Er, Et; discriminate|exact (H f' Hf)].
        -- intros H f' Hf. exact (H f' (or_intror Hf)).
    + destruct (includes name f) eqn:Ei.
      * split; [discriminate|]. intros H. specialize (H f (or_introl eq_refl)).
        rewrite Er, Ei in H. discriminate.
      * rewrite IH. split.
        -- intros H f' [Hf|Hf]; [injection Hf as <-; rewrite Er; exact Ei|exact (H f' Hf)].
        -- intros H f' Hf. exact (H f' (or_intror Hf)).
Qed.

Lemma keep_asset_true (minSizeBytes : num) (filters : list json) (a : json) :
  keep_asset regex_test lt_coerced minSizeBytes filters a = true <->
  exists fs name, a = JObj fs /\ get fs "name" = Some (JStr name) /\
    js_lt lt_coerced (size_or_default fs) minSizeBytes = false /\
    hidden_by regex_test name filters = false.
Proof.
  unfold keep_asset. split.
  - destruct a as [| | | | |fs]; try discriminate.
    destruct (get fs "name") as [[| | | name | |]|] eqn:En; try discriminate.
    destruct (js_lt lt_coerced (size_or_default fs) minSizeBytes) eqn:El; [discriminate|].
    intros H. exists fs, name. repeat split; auto.
    destruct (Nat.ltb 0 (List.length filters)) eqn:Elen.
    + destruct (hidden_by regex_test name filters); [discriminate|reflexivity].
    + destruct filters; [reflexivity|discriminate].
  - intros (fs & name & -> & En & Hl & Hh). rewrite En, Hl. simpl.
    destruct (Nat.ltb 0 (List.length filters)); [rewrite Hh|]; reflexivity.
Qed.

Lemma filter_idem {A} (p : A -> bool) (l : list A) : filter p (filter p l) = filter p l.
Proof.
  induction l as [|x r IH]; simpl; [reflexivity|].
  destruct (p x) eqn:E; simpl; [rewrite E, IH|exact IH]; reflexivity.
Qed.

End WorkerFacts.

(** The worker keeps an element of the asset array exactly when it is an
    object with a string [name], its [size ?? 0] is not below
    [minSizeBytes], and no string filter hides it: a [/.../] filter whose
    pattern compiles and matches the name, or another string contained in
    the name.  Filters that are not strings are skipped. *)
Theorem filterAssets_In (regex_test : string -> string -> option bool)
    (lt_coerced : json -> num -> bool) (xs : list json) (minSizeBytes : num)
    (excludeFilters : list json) (a : json) :
  In a (filterAssets regex_test lt_coerced (JArr xs) minSizeBytes excludeFilters) <->
  In a xs /\
  exists fs name, a = JObj fs /\ get fs "name" = Some (JStr name) /\
    js_lt lt_coerced (size_or_default fs) minSizeBytes = false /\
    forall f, In (JStr f) excludeFilters ->
      if regex_filter f then regex_test (regex_source f) name <> Some true
      else includes name f = false.
Proof.
  unfold filterAssets. rewrite filter_In, keep_asset_true.
  split.
  - intros (Hin & fs & name & He & Hn & Hl & Hh). split; [exact Hin|].
    exists fs, name. repeat split; auto. apply hidden_by_false. exact Hh.
  - intros (Hin & fs & name & He & Hn & Hl & Hh). split; [exact Hin|].
    exists fs, name. repeat split; auto. apply hidden_by_false. exact Hh.
Qed.

(** Filtering the worker's own output again with the same settings
    changes nothing. *)
Theorem filterAssets_idempotent (regex_test : string -> string -> option bool)
    (lt_coerced : json -> num -> bool) (allAssets : json) (minSizeBytes : num)
    (excludeFilters : list json) :
  filterAssets regex_test lt_coerced
    (JArr (filterAssets regex_test lt_coerced allAssets minSizeBytes excludeFilters))
    minSizeBytes excludeFilters =
  filterAssets regex_test lt_coerced allAssets minSizeBytes excludeFilters.
Proof.
  destruct allAssets; try reflexivity. unfold filterAssets. apply filter_idem.
Qed.

(** An empty string among the exclude filters hides every asset: it is
    not a [/.../] filter and every name includes it. *)
Theorem filterAssets_empty_filter (regex_test : string -> string -> option bool)
    (lt_coerced : json -> num -> bool) (allAssets : json) (minSizeBytes : num)
    (excludeFilters : list json) :
  In (JStr "") excludeFilters ->
  filterAssets regex_test lt_coerced allAssets minSizeBytes excludeFilters = [].
Proof.
  intros H. destruct allAssets as [| | | | xs |]; try reflexivity.
  unfold filterAssets. destruct (filter _ xs) as [|a r] eqn:E; [reflexivity|].
  assert (Ha : In a (filter (keep_asset regex_test lt_coerced minSizeBytes excludeFilters) xs))
    by (rewrite E; left; reflexivity).
  apply filter_In in Ha as [_ Ha]. apply keep_asset_true in Ha as (fs & name & _ & _ & _ & Hh).
  apply hidden_by_false with (f := "") in Hh; [|exact H].
  simpl in Hh. rewrite includes_empty in Hh. discriminate.
Qed.

Lemma filterAssets_empty_filter_witness :
  In (JStr "") [JStr "vendor"; JStr ""] /\
  filterAssets (fun _ _ => None) (fun _ _ => false)
    (JArr [asset_json "main.js" (Fin 4000)]) (Fin 1024) [JStr "vendor"; JStr ""] = [].
Proof.
  split; [simpl; auto|].
  apply (filterAssets_empty_filter (fun _ _ => None) (fun _ _ => false)).
  simpl; auto.
Defined.

(** The worker's call of [filterAssets] throws, and [self.onmessage] posts
    an [ERROR] message, exactly when an element of the asset array is an
    object with a string [name] whose [size ?? 0] cannot be converted to a
    primitive: an object with an own [toString] property, or an array
    holding one. *)
Theorem filterAssets_call_throws (regex_test : string -> string -> option bool)
    (lt_coerced : json -> num -> bool) (xs : list json) (minSizeBytes : num)
    (excludeFilters : list json) :
  filterAssets_call regex_test lt_coerced (JArr xs) minSizeBytes excludeFilters = None <->
  exists fs name, In (JObj fs) xs /\ get fs "name" = Some (JStr name) /\
    to_primitive_throws (size_or_default fs) = true.
Proof.
  unfold filterAssets_call. destruct (existsb keep_asset_throws xs) eqn:E.
  - split; [intros _|reflexivity].
    apply existsb_exists in E as ([| | | | |fs] & Hin & Ha); try discriminate.
    simpl in Ha. destruct (get fs "name") as [[| | | s | |]|] eqn:En; try discriminate.
    exists fs, s. auto.
  - split; [discriminate|]. intros (fs & name & Hin & Hn & Ht).
    assert (Hx : existsb keep_asset_throws xs = true).
    { apply existsb_exists. exists (JObj fs). split; [exact Hin|]. simpl. rewrite Hn. exact Ht. }
    congruence.
Qed.

Lemma filterAssets_call_throws_witness :
  filterAssets_call (fun _ _ => None) (fun _ _ => false)
    (JArr [asset_json "main.js" (Fin 4000);
           JObj [("name", JStr "odd.js"); ("size", JObj [("toString", JNum (Fin 0))])]])
    (Fin 1024) [] = None.
Proof.
  apply (filterAssets_call_throws (fun _ _ => None) (fun _ _ => false)).
  exists [("name", JStr "odd.js"); ("size", JObj [("toString", JNum (Fin 0))])], "odd.js".
  split; [right; left; reflexivity|split; reflexivity].
Defined.

(** ** The exclude filters sent to the worker, and [truncateText] *)

Lemma includes_char (s : string) (c : ascii) :
  includes s (String c EmptyString) = true <-> In c (list_ascii_of_string s).
Proof.
  induction s as [|d r IH]; simpl; [split; [discriminate|intros []]|].
  rewrite <- IH. destruct (ascii_dec c d) as [->|Hne]; simpl.
  - destruct r; split; auto.
  - split; [intros H; right; exact H|intros [H|H]; [congruence|exact H]].
Qed.

Lemma trim_start_head (s c r : _) :
  trim_start s = String c r -> is_js_ws c = false.
Proof.
  induction s as [|d t IH]; simpl; [discriminate|].
  destruct (is_js_ws d) eqn:E; [exact IH|]. intros H. injection H as <- _. exact E.
Qed.

Lemma trim_start_fixed (s : string) :
  (forall c r, s = String c r -> is_js_ws c = false) -> trim_start s = s.
Proof. destruct s as [|c r]; simpl; [reflexivity|]. intros H. rewrite (H c r eq_refl). reflexivity. Qed.

Lemma trim_end_head (c : ascii) (r : string) :
  is_js_ws c = false -> trim_end (String c r) = String c (trim_end r).
Proof. intros H. simpl. rewrite H. reflexivity. Qed.

Lemma trim_end_idem (s : string) : trim_end (trim_end s) = trim_end s.
Proof.
  induction s as [|c r IH]; simpl; [reflexivity|].
  destruct (is_js_ws c && String.eqb (trim_end r) "") eqn:E; [reflexivity|].
  simpl. rewrite IH, E. reflexivity.
Qed.

Lemma trim_idem (s : string) : trim (trim s) = trim s.
Proof.
  unfold trim. rewrite (trim_start_fixed (trim_end (trim_start s))).
  - apply trim_end_idem.
  - intros c r H. destruct (trim_start s) as [|d t] eqn:E; [discriminate|].
    apply trim_start_head in E. rewrite (trim_end_head _ _ E) in H.
    injection H as <- _. exact E.
Qed.

Lemma trim_start_chars (s : string) (c : ascii) :
  In c (list_ascii_of_string (trim_start s)) -> In c (list_ascii_of_string s).
Proof.
  induction s as [|d r IH]; simpl; [auto|].
  destruct (is_js_ws d); simpl; auto.
Qed.

Lemma trim_end_chars (s : string) (c : ascii) :
  In c (list_ascii_of_string (trim_end s)) -> In c (list_ascii_of_string s).
Proof.
  induction s as [|d r IH]; simpl; [auto|].
  destruct (is_js_ws d && String.eqb (trim_end r) ""); simpl; [intros []|].
  intros [H|H]; auto.
Qed.

Lemma split_comma_chars (s p : string) :
  In p (split_comma s) -> ~ In ","%char (list_ascii_of_string p).
Proof.
  revert p. induction s as [|c r IH]; intros p; simpl.
  - intros [<-|[]]. simpl. auto.
  - destruct (Ascii.eqb c ","%char) eqn:Ec.
    + intros [<-|Hp]; [simpl; auto|exact (IH p Hp)].
    + destruct (split_comma r) as [|h t] eqn:Es.
      * intros [<-|[]]. simpl. intros [H|[]]. subst c. discriminate.
      * intros [<-|Hp]; [|apply IH; right; exact Hp].
        simpl. intros [H|H]; [subst c; discriminate|].
        apply (IH h); [left; reflexivity|exact H].
Qed.

(** Every exclude filter the page sends to the worker is non-empty,
    contains no comma and has no white space to trim at either end: an
    empty or blank entry between commas is dropped, so the page never
    sends the empty filter that would hide every asset. *)
Theorem serializableExcludeFilters_clean (excludePatternsRaw f : string) :
  In f (serializableExcludeFilters excludePatternsRaw) ->
  f <> "" /\ includes f "," = false /\ trim f = f.
Proof.
  unfold serializableExcludeFilters. rewrite filter_In, in_map_iff.
  intros ((p & <- & Hp) & Hne). split; [|split].
  - intros E. rewrite E in Hne. discriminate.
  - destruct (includes (trim p) ",") eqn:E; [|reflexivity].
    exfalso. apply includes_char in E. unfold trim in E.
    apply trim_end_chars, trim_start_chars in E. exact (split_comma_chars _ _ Hp E).
  - apply trim_idem.
Qed.

Lemma serializableExcludeFilters_clean_witness :
  In "node_modules" (serializableExcludeFilters " node_modules, ,/\.map$/,") /\
  ("node_modules" <> "" /\ includes "node_modules" "," = false /\
   trim "node_modules" = "node_modules").
Proof.
  split; [simpl; auto|].
  apply (serializableExcludeFilters_clean " node_modules, ,/\.map$/,").
  simpl; auto.
Defined.

Lemma substring_0_length (n : nat) (t : string) :
  String.length (String.substring 0 n t) = Nat.min n (String.length t).
Proof.
  revert n. induction t as [|c r IH]; intros [|n]; simpl; try reflexivity.
  rewrite IH. reflexivity.
Qed.

Lemma substring_0_all (n : nat) (t : string) :
  String.length t <= n -> String.substring 0 n t = t.
Proof.
  revert n. induction t as [|c r IH]; intros [|n]; simpl; intros H;
    try reflexivity; try lia.
  rewrite IH by lia. reflexivity.
Qed.

Lemma prefix_refl (s : string) : String.prefix s s = true.
Proof.
  induction s as [|c r IH]; simpl; [reflexivity|].
  destruct (ascii_dec c c); [exact IH|contradiction].
Qed.

Lemma prefix_append (s u : string) : String.prefix s (String.append s u) = true.
Proof.
  induction s as [|c r IH]; simpl; [destruct u; reflexivity|].
  destruct (ascii_dec c c); [exact IH|contradiction].
Qed.

Lemma length_append (s u : string) :
  String.length (String.append s u) = String.length s + String.length u.
Proof. induction s as [|c r IH]; simpl; [reflexivity|]. rewrite IH. reflexivity. Qed.

(** [truncateText] returns at most [maxLength + 3] characters, starting
    with the first [maxLength] characters of the text (all of it when it
    is shorter), and returns a text of at most [maxLength] characters as
    it is. *)
Theorem truncateText_bounds (text : string) (maxLength : nat) :
  String.length (truncateText text maxLength) <= maxLength + 3 /\
  String.prefix (String.substring 0 maxLength text) (truncateText text maxLength) = true /\
  (String.length text <= maxLength -> truncateText text maxLength = text).
Proof.
  unfold truncateText.
  destruct (String.eqb text "") eqn:E.
  - apply String.eqb_eq in E. subst text. simpl.
    destruct maxLength; repeat split; (lia || reflexivity).
  - destruct (Nat.ltb maxLength (String.length text)) eqn:L.
    + apply Nat.ltb_lt in L. repeat split.
      * rewrite length_append, substring_0_length. simpl. lia.
      * apply prefix_append.
      * intros H. lia.
    + apply Nat.ltb_ge in L. repeat split.
      * lia.
      * rewrite (substring_0_all _ _ L). apply prefix_refl.
Qed.
